(** * Scam detector: the message-risk scoring core of [src/lib/analyze.ts]

    A shallow embedding of [analyzeHeuristically] and [analyzeMessage]
    together with the properties stated about them.

    JavaScript strings are sequences of UTF-16 code units; [message.length],
    [includes], [split] and the regular expressions of the source all work on
    code units, so a string is a [list N] here.  The two primitives whose
    result depends on the Unicode case tables of the platform,
    [String.prototype.toLowerCase] and [String.prototype.toUpperCase], are
    Section variables: every theorem holds whatever those tables are.  A
    concrete instance, exact on code units below 256, is used to run the
    model on examples. *)

From Stdlib Require Import Ascii String.
From Stdlib Require Import List ZArith NArith Bool Lia.
From Stdlib Require Import Floats.SpecFloat.
Import ListNotations.

Set Implicit Arguments.

(** ** Platform primitives *)

Module JS.

Definition jsstring := list N.

(** A source literal, written as a [string], as its code units. *)
Fixpoint str (s : string) : jsstring :=
  match s with
  | EmptyString => []
  | String a s' => N_of_ascii a :: str s'
  end.

Fixpoint eqb (a b : jsstring) : bool :=
  match a, b with
  | [], [] => true
  | x :: a', y :: b' => N.eqb x y && eqb a' b'
  | _, _ => false
  end.

(** [s.startsWith(prefix)]. *)
Fixpoint startsWith (s prefix : jsstring) {struct prefix} : bool :=
  match prefix, s with
  | [], _ => true
  | _ :: _, [] => false
  | p :: prefix', c :: s' => N.eqb c p && startsWith s' prefix'
  end.

(** [s.includes(search)]: [search] occurs at some position of [s]. *)
Fixpoint includes (s search : jsstring) : bool :=
  startsWith s search ||
  match s with
  | [] => false
  | _ :: s' => includes s' search
  end.

(** Number of positions of [s] at which [search] occurs. *)
Fixpoint occurrences (s search : jsstring) : nat :=
  (if startsWith s search then 1 else 0) +
  match s with
  | [] => 0
  | _ :: s' => occurrences s' search
  end.

(** [s.split(sep)] for a one-character separator. *)
Fixpoint split (sep : N) (s : jsstring) : list jsstring :=
  match s with
  | [] => [[]]
  | c :: s' =>
      if N.eqb c sep then [] :: split sep s'
      else match split sep s' with
           | [] => [[c]]
           | w :: ws => (c :: w) :: ws
           end
  end.

(** [parts.join(sep)]. *)
Fixpoint join (sep : jsstring) (parts : list jsstring) : jsstring :=
  match parts with
  | [] => []
  | [p] => p
  | p :: rest => p ++ sep ++ join sep rest
  end.

(** The class [\s] of a regular expression: white space and line
    terminators. *)
Definition isWhiteSpace (c : N) : bool :=
  ((9 <=? c) && (c <=? 13) || (c =? 32) || (c =? 160) || (c =? 5760)
   || (8192 <=? c) && (c <=? 8202) || (c =? 8232) || (c =? 8233)
   || (c =? 8239) || (c =? 8287) || (c =? 12288) || (c =? 65279))%N.

Definition isAsciiLower (c : N) : bool := ((97 <=? c) && (c <=? 122))%N.
Definition isAsciiUpper (c : N) : bool := ((65 <=? c) && (c <=? 90))%N.

(** Case folding of a regular expression with flag [i] and without flag
    [u].  The patterns of the source hold ASCII characters only, and the
    folding never sends a code unit of 128 or more to an ASCII one, so
    leaving those code units alone decides the same matches. *)
Definition canonicalize (c : N) : N :=
  if isAsciiLower c then (c - 32)%N else c.

Fixpoint startsWith_i (s prefix : jsstring) {struct prefix} : bool :=
  match prefix, s with
  | [], _ => true
  | _ :: _, [] => false
  | p :: prefix', c :: s' =>
      N.eqb (canonicalize c) (canonicalize p) && startsWith_i s' prefix'
  end.

(** [/literal/i.test(s)]. *)
Fixpoint test_i (literal s : jsstring) : bool :=
  startsWith_i s literal ||
  match s with
  | [] => false
  | _ :: s' => test_i literal s'
  end.

(** [(s.match(/c/g) || []).length] for a one-character pattern. *)
Definition countChar (c : N) (s : jsstring) : nat :=
  length (filter (N.eqb c) s).

(** [/\s{3,}/.test(s)]. *)
Fixpoint test_threeSpaces (s : jsstring) : bool :=
  match s with
  | a :: ((b :: c :: _) as s') =>
      isWhiteSpace a && isWhiteSpace b && isWhiteSpace c
      || test_threeSpaces s'
  | _ => false
  end.

(** [/[a-z][A-Z]/.test(s)]. *)
Fixpoint test_caseBreak (s : jsstring) : bool :=
  match s with
  | a :: ((b :: _) as s') =>
      isAsciiLower a && isAsciiUpper b || test_caseBreak s'
  | _ => false
  end.

(** Insertion into a [Set]: the element goes last unless it is there. *)
Definition Set_add (set : list jsstring) (x : jsstring) : list jsstring :=
  if existsb (eqb x) set then set else set ++ [x].

(** [Array.from(new Set(items))]: the elements in insertion order. *)
Definition Array_from_Set (items : list jsstring) : list jsstring :=
  fold_left Set_add items [].

(** Index of the first occurrence, as [indexOf] without its [-1]. *)
Fixpoint indexOf (x : jsstring) (l : list jsstring) : option nat :=
  match l with
  | [] => None
  | y :: l' =>
      if eqb x y then Some 0
      else match indexOf x l' with
           | Some i => Some (S i)
           | None => None
           end
  end.

(** [out] lists elements of [acc] in the order in which [acc] first shows
    them. *)
Definition firstSeenOrder (out acc : list jsstring) : Prop :=
  forall i j x y,
    (i < j)%nat -> nth_error out i = Some x -> nth_error out j = Some y ->
    exists p q,
      indexOf x acc = Some p /\ indexOf y acc = Some q /\ (p < q)%nat.

(** The values [JSON.parse] can produce; a number is an IEEE 754 double. *)
#[local] Set Warnings "-register-all".
#[local] Unset Elimination Schemes.
Inductive value : Type :=
| JNull
| JBool (b : bool)
| JNumber (n : spec_float)
| JString (s : jsstring)
| JArray (items : list value)
| JObject (props : list (jsstring * value)).
#[local] Set Elimination Schemes.

(** Property lookup among the own properties of an object built by
    [JSON.parse]. *)
Fixpoint lookup (key : jsstring) (props : list (jsstring * value))
  : option value :=
  match props with
  | [] => None
  | (k, v) :: props' => if eqb k key then Some v else lookup key props'
  end.

(** [v.key] for a key that no prototype defines: [None] inside [Some] is
    [undefined], and the outer [None] is the [TypeError] of reading a
    property of [null]. *)
Definition get (v : value) (key : jsstring) : option (option value) :=
  match v with
  | JNull => None
  | JObject props => Some (lookup key props)
  | _ => Some None
  end.

(** [typeof x === 'number'], with [None] for [undefined]. *)
Definition isNumber (x : option value) : bool :=
  match x with
  | Some (JNumber _) => true
  | _ => false
  end.

(** ToBoolean. *)
Definition truthy (x : option value) : bool :=
  match x with
  | None | Some JNull => false
  | Some (JBool b) => b
  | Some (JNumber (S754_zero _)) | Some (JNumber S754_nan) => false
  | Some (JNumber _) => true
  | Some (JString s) => negb (eqb s [])
  | Some (JArray _) | Some (JObject _) => true
  end.

(** The double [n] is one of the integers [lo] .. [hi]. *)
Definition isIntegerBetween (lo hi : Z) (n : spec_float) : bool :=
  match n with
  | S754_zero _ => (lo <=? 0)%Z && (0 <=? hi)%Z
  | S754_finite sign m e =>
      let v := if sign then Zneg m else Zpos m in
      if (0 <=? e)%Z
      then (lo <=? v * 2 ^ e)%Z && (v * 2 ^ e <=? hi)%Z
      else (v mod 2 ^ (- e) =? 0)%Z
           && (lo <=? v / 2 ^ (- e))%Z && (v / 2 ^ (- e) <=? hi)%Z
  | _ => false
  end.

(** [toLowerCase] and [toUpperCase] on strings of code units below 256,
    where the Unicode tables are small enough to write down. *)
Definition lowerUnit (c : N) : N :=
  if (isAsciiUpper c
      || (192 <=? c)%N && (c <=? 222)%N && negb (c =? 215)%N)
  then (c + 32)%N else c.

Definition upperUnit (c : N) : jsstring :=
  if (isAsciiLower c
      || (224 <=? c)%N && (c <=? 254)%N && negb (c =? 247)%N)
  then [(c - 32)%N]
  else if (c =? 181)%N then [924%N]
  else if (c =? 223)%N then [83%N; 83%N]
  else if (c =? 255)%N then [376%N]
  else [c].

Definition toLowerCase_latin1 (s : jsstring) : jsstring := map lowerUnit s.
Definition toUpperCase_latin1 (s : jsstring) : jsstring :=
  flat_map upperUnit s.

(** [s.trim()]: white space and line terminators, the class [\s], are
    dropped at both ends. *)
Fixpoint trimStart (s : jsstring) : jsstring :=
  match s with
  | [] => []
  | c :: s' => if isWhiteSpace c then trimStart s' else s
  end.

Definition trimEnd (s : jsstring) : jsstring := rev (trimStart (rev s)).

Definition trim (s : jsstring) : jsstring := trimEnd (trimStart s).

(** [s.replace(/```json\n?|\n?```/g, "")].  The scan goes left to right;
    at a position the first alternative is tried before the second, and
    each takes its optional line feed when it is there.  [skip] counts the
    code units of the current match that are still to be dropped. *)
Fixpoint stripFrom (skip : nat) (s : jsstring) : jsstring :=
  match s with
  | [] => []
  | c :: s' =>
      match skip with
      | S k => stripFrom k s'
      | O =>
          if startsWith s (str "```json")
          then stripFrom (if startsWith (skipn 7 s) [10%N] then 7 else 6) s'
          else if startsWith s (10%N :: str "```") then stripFrom 3 s'
          else if startsWith s (str "```") then stripFrom 2 s'
          else c :: stripFrom 0 s'
      end
  end.

Definition stripFences (s : jsstring) : jsstring := stripFrom 0 s.

End JS.

Import JS.
Arguments str s%_string.

(** ** The verdict and the pattern catalog *)

Inductive RiskLevel : Type := low | medium | high.

Record ScamAnalysisResult : Type := {
  riskScore : Z;
  riskLevel : RiskLevel;
  explanation : jsstring;
  patterns : list jsstring;
  suspiciousPhrases : list jsstring
}.

Record Pattern : Type := {
  keywords : list jsstring;
  description : jsstring
}.

Definition urgentLanguage : Pattern := {|
  keywords := map str
    ["urgent"; "immediately"; "act now"; "limited time"; "expires"; "hurry";
     "today only"; "last chance"; "final notice"; "suspended"; "locked";
     "expire"]%string;
  description := str "Urgent or time-pressured language" |}.

Definition paymentRequest : Pattern := {|
  keywords := map str
    ["wire transfer"; "gift card"; "bitcoin"; "crypto"; "payment";
     "send money"; "pay now"; "invoice"; "western union"; "paypal"; "venmo";
     "cash app"; "zelle"]%string;
  description := str "Requests for payment or financial information" |}.

Definition impersonation : Pattern := {|
  keywords := map str
    ["verify account"; "confirm identity"; "update information";
     "security alert"; "unusual activity"; "click here"; "log in";
     "reset password"; "suspended account"; "unauthorized access"]%string;
  description := str "Impersonation of official organizations" |}.

Definition prizes : Pattern := {|
  keywords := map str
    ["you've won"; "congratulations"; "winner"; "prize"; "lottery";
     "claim your"; "free gift"; "selected"; "lucky"]%string;
  description := str "Too-good-to-be-true offers or prizes" |}.

Definition threats : Pattern := {|
  keywords := map str
    ["legal action"; "arrest"; "warrant"; "police"; "lawsuit"; "court";
     "penalty"; "fine"; "consequences"; "investigation"]%string;
  description := str "Threats or legal intimidation" |}.

(** [Object.entries(SCAM_PATTERNS)]: the entries in declaration order. *)
Definition SCAM_PATTERNS : list (jsstring * Pattern) :=
  [ (str "urgentLanguage", urgentLanguage);
    (str "paymentRequest", paymentRequest);
    (str "impersonation", impersonation);
    (str "prizes", prizes);
    (str "threats", threats) ].

Definition personalInfoKeywords : list jsstring :=
  map str
    ["social security"; "ssn"; "credit card"; "bank account"; "password";
     "pin"; "date of birth"]%string.

Definition formattingDescription : jsstring :=
  str "Poor grammar or unusual formatting".
Definition shortenedDescription : jsstring :=
  str "Shortened or suspicious URLs".
Definition linksDescription : jsstring :=
  str "Contains links (verify before clicking)".
Definition personalInfoDescription : jsstring :=
  str "Requests for sensitive personal information".
Definition noPatterns : jsstring := str "No scam patterns detected".

(** The mutable locals of [analyzeHeuristically]. *)
Record Locals : Type := {
  detectedPatterns : list jsstring;
  phrases : list jsstring;
  score : Z
}.

Definition initial : Locals :=
  {| detectedPatterns := []; phrases := []; score := 0 |}.

(** [detectedPatterns.push(d); riskScore += n]. *)
Definition flag (d : jsstring) (n : Z) (st : Locals) : Locals :=
  {| detectedPatterns := detectedPatterns st ++ [d];
     phrases := phrases st;
     score := score st + n |}.

(** The regular expressions of the link check. *)
Definition hasLinks (message : jsstring) : bool :=
  test_i (str "http://") message || test_i (str "https://") message
  || test_i (str "www.") message.

Definition hasShortenedLinks (message : jsstring) : bool :=
  test_i (str "bit.ly") message || test_i (str "tinyurl") message
  || test_i (str "goo.gl") message.

Definition checkLinks (message : jsstring) (st : Locals) : Locals :=
  if hasShortenedLinks message then flag shortenedDescription 20 st
  else if hasLinks message && (0 <? length (detectedPatterns st))%nat
       then flag linksDescription 10 st
       else st.

Definition levelOf (riskScore : Z) : RiskLevel :=
  if (riskScore <=? 30)%Z then low
  else if (riskScore <=? 70)%Z then medium
  else high.

(** ** The remote classifier, as [analyzeMessage] sees it *)

(** Outcome of the remote part of the [try] block (the request, reading
    the text of the response, stripping code fences and [JSON.parse]): an
    exception from the service, an exception from the parser, or a parsed
    value. *)
Inductive Remote : Type :=
| CallFails
| ParseFails
| Parsed (analysis : value).

(** What [analyzeMessage] resolves to: the record built by
    [analyzeHeuristically], or the parsed value handed back as it is (the
    cast [as ScamAnalysisResult] checks nothing at run time). *)
Inductive Returned : Type :=
| Built (result : ScamAnalysisResult)
| Accepted (analysis : value).

(** The invariants of the verdict data model, on a built record and on an
    accepted value. *)
Definition recordInvariants (r : ScamAnalysisResult) : bool :=
  (0 <=? riskScore r)%Z && (riskScore r <=? 100)%Z
  && match riskLevel r with low | medium | high => true end
  && negb (eqb (explanation r) []).

Definition valueInvariants (analysis : value) : bool :=
  match get analysis (str "riskScore") with
  | Some (Some (JNumber n)) => isIntegerBetween 0 100 n
  | _ => false
  end
  && match get analysis (str "riskLevel") with
     | Some (Some (JString l)) =>
         eqb l (str "low") || eqb l (str "medium") || eqb l (str "high")
     | _ => false
     end
  && match get analysis (str "explanation") with
     | Some (Some (JString e)) => negb (eqb e [])
     | _ => false
     end.

Definition verdictInvariants (v : Returned) : bool :=
  match v with
  | Built r => recordInvariants r
  | Accepted analysis => valueInvariants analysis
  end.

(** The failures named by the specification: no credential, and a parsed
    response without a numeric score or without a tier value. *)
Definition credentialAbsent (GEMINI_API_KEY : option jsstring) : bool :=
  match GEMINI_API_KEY with
  | None | Some [] => true
  | Some _ => false
  end.

Definition hasNumericScore (analysis : value) : bool :=
  match get analysis (str "riskScore") with
  | Some (Some (JNumber _)) => true
  | _ => false
  end.

Definition hasLevel (analysis : value) : bool :=
  match get analysis (str "riskLevel") with
  | Some (Some _) => true
  | _ => false
  end.

(** The text [analyzeMessage] hands to [JSON.parse]:
    [text.replace(/```json\n?|\n?```/g, "").trim()]. *)
Definition cleanJson (text : jsstring) : jsstring :=
  trim (stripFences text).

(** ** The request handler of [src/app/api/analyze/route.ts] *)

Definition RATE_LIMIT_WINDOW : Z := 60 * 1000.
Definition MAX_REQUESTS_PER_WINDOW : Z := 10.

(** An entry of [ipRequestCounts].  [count] is a JavaScript number that
    only ever grows by one from 0 or 1, [resetTime] a time in
    milliseconds. *)
Record Rate : Type := {
  count : Z;
  resetTime : Z
}.

(** [ipRequestCounts], a [Map] from strings, in insertion order. *)
Definition RateMap : Type := list (jsstring * Rate).

Fixpoint Map_get (m : RateMap) (key : jsstring) : option Rate :=
  match m with
  | [] => None
  | (k, v) :: m' => if eqb k key then Some v else Map_get m' key
  end.

Fixpoint Map_set (m : RateMap) (key : jsstring) (v : Rate) : RateMap :=
  match m with
  | [] => [(key, v)]
  | (k, x) :: m' =>
      if eqb k key then (k, v) :: m' else (k, x) :: Map_set m' key v
  end.

(** [request.headers.get("x-forwarded-for") || "unknown"]. *)
Definition clientOf (forwardedFor : option jsstring) : jsstring :=
  match forwardedFor with
  | None | Some [] => str "unknown"
  | Some ip => ip
  end.

(** The entry of a client after the rate-limiting block has counted a
    request that arrives at [now]. *)
Definition rateStep (ipRequestCounts : RateMap) (ip : jsstring) (now : Z)
  : Rate :=
  let userRate :=
    match Map_get ipRequestCounts ip with
    | Some r => r
    | None => {| count := 0; resetTime := now + RATE_LIMIT_WINDOW |}
    end in
  if (resetTime userRate <? now)%Z
  then {| count := 1; resetTime := now + RATE_LIMIT_WINDOW |}
  else {| count := count userRate + 1; resetTime := resetTime userRate |}.

(** The JSON body of a response: the [error] and [code] fields of a
    failure (its [details] and [timestamp] texts are left out), or the
    verdict. *)
Inductive Payload : Type :=
| Failure (error code : jsstring)
| Verdict (result : Returned).

Record Response : Type := {
  status : Z;
  payload : Payload
}.

(** What one call of [POST] reads from its surroundings: the header, the
    clock, the outcome of [request.json()] ([None] when it throws), the
    credential and the outcome of the remote classifier. *)
Record Request : Type := {
  forwardedFor : option jsstring;
  now : Z;
  json : option value;
  credential : option jsstring;
  reply : Remote
}.

(** The request passes the rate limiter. *)
Definition admitted (ipRequestCounts : RateMap) (request : Request) : bool :=
  (count (rateStep ipRequestCounts (clientOf (forwardedFor request))
            (now request))
   <=? MAX_REQUESTS_PER_WINDOW)%Z.

(** The [message] field of the request body, when the body parses and
    the field is a string. *)
Definition messageField (request : Request) : option jsstring :=
  match json request with
  | Some body =>
      match get body (str "message") with
      | Some (Some (JString message)) => Some message
      | _ => None
      end
  | None => None
  end.

(** A message the handler lets through: not white space throughout (so
    not empty) and of at most 10000 code units. *)
Definition acceptable (message : jsstring) : bool :=
  negb (forallb isWhiteSpace message)
  && (Z.of_nat (length message) <=? 10000)%Z.

(** ** The display helpers of [src/app/page.tsx] *)

(** The string a level is in the verdict. *)
Definition levelName (level : RiskLevel) : jsstring :=
  match level with
  | low => str "low"
  | medium => str "medium"
  | high => str "high"
  end.

Definition getRiskColor (level : jsstring) : jsstring :=
  if eqb level (str "low")
  then str "text-emerald-600 bg-emerald-50 border-emerald-200"
  else if eqb level (str "medium")
  then str "text-amber-600 bg-amber-50 border-amber-200"
  else if eqb level (str "high")
  then str "text-rose-600 bg-rose-50 border-rose-200"
  else str "text-slate-600 bg-slate-50 border-slate-200".

Definition getRiskLabel (level : jsstring) : jsstring :=
  if eqb level (str "low") then str "Low Risk"
  else if eqb level (str "medium") then str "Medium Risk"
  else if eqb level (str "high") then str "High Risk"
  else str "Unknown".

Definition getRiskScoreColor (score : Z) : jsstring :=
  if (score <? 30)%Z then str "text-emerald-600"
  else if (score <? 70)%Z then str "text-amber-600"
  else str "text-rose-600".

(** [l] is [k] with some entries left out, the others in their order. *)
Fixpoint subseq (l k : list jsstring) : bool :=
  match l, k with
  | [], _ => true
  | _ :: _, [] => false
  | x :: l', y :: k' => if eqb x y then subseq l' k' else subseq l k'
  end.

(** ** The heuristic scorer and the orchestrator *)

Section Analysis.

(** [String.prototype.toLowerCase] and [String.prototype.toUpperCase]. *)
Variable toLowerCase : jsstring -> jsstring.
Variable toUpperCase : jsstring -> jsstring.

Definition matchedKeywords (messageLower : jsstring) (pattern : Pattern)
  : list jsstring :=
  filter (fun keyword => includes messageLower (toLowerCase keyword))
         (keywords pattern).

(** One turn of the loop over [Object.entries(SCAM_PATTERNS)]. *)
Definition checkPattern (messageLower : jsstring) (st : Locals)
  (entry : jsstring * Pattern) : Locals :=
  let pattern := snd entry in
  let matched := matchedKeywords messageLower pattern in
  if (0 <? length matched)%nat then
    {| detectedPatterns := detectedPatterns st ++ [description pattern];
       phrases := phrases st ++ firstn 3 matched;
       score := score st + (15 + Z.of_nat (length matched) * 5) |}
  else st.

Definition hasMultipleExclamations (message : jsstring) : bool :=
  (2 <? countChar 33 message)%nat.

Definition hasAllCaps (message : jsstring) : bool :=
  (2 <? length
          (filter (fun word =>
                     (3 <? length word)%nat && eqb word (toUpperCase word))
                  (split 32 message)))%nat.

Definition hasPoorSpacing (message : jsstring) : bool :=
  test_threeSpaces message || test_caseBreak message.

Definition checkFormatting (message : jsstring) (st : Locals) : Locals :=
  if hasMultipleExclamations message || hasAllCaps message
     || hasPoorSpacing message
  then flag formattingDescription 10 st
  else st.

Definition hasPersonalInfoRequest (messageLower : jsstring) : bool :=
  existsb (fun keyword => includes messageLower keyword) personalInfoKeywords.

Definition checkPersonalInfo (messageLower : jsstring) (st : Locals)
  : Locals :=
  if hasPersonalInfoRequest messageLower
  then flag personalInfoDescription 25 st
  else st.

(** The locals after each block of the function body. *)
Definition afterCategories (message : jsstring) : Locals :=
  fold_left (checkPattern (toLowerCase message)) SCAM_PATTERNS initial.

Definition afterFormatting (message : jsstring) : Locals :=
  checkFormatting message (afterCategories message).

Definition afterLinks (message : jsstring) : Locals :=
  checkLinks message (afterFormatting message).

Definition afterPersonalInfo (message : jsstring) : Locals :=
  checkPersonalInfo (toLowerCase message) (afterLinks message).

(** [riskScore = Math.min(100, riskScore)]. *)
Definition cappedScore (message : jsstring) : Z :=
  Z.min 100 (score (afterPersonalInfo message)).

(** The score after the adjustment for short messages without patterns. *)
Definition finalScore (message : jsstring) : Z :=
  if (length message <? 50)%nat
     && (length (detectedPatterns (afterPersonalInfo message)) =? 0)%nat
  then Z.max 0 (cappedScore message - 10)
  else cappedScore message.

Definition explain (riskScore : Z) (riskLevel : RiskLevel)
  (detected : list jsstring) : jsstring :=
  if (riskScore =? 0)%Z then
    str "This message appears to be legitimate with no obvious scam indicators detected. However, always exercise caution when sharing personal information or clicking on links."
  else
    match riskLevel with
    | low =>
        str "This message shows minimal risk indicators. "
        ++ (if (0 <? length detected)%nat
            then str "While some patterns were detected, they may be used in legitimate contexts."
            else str "No significant scam patterns were found.")
        ++ str " Always verify the sender's identity before taking action."
    | medium =>
        str "This message contains several concerning elements that are commonly found in scam attempts. The use of "
        ++ match detected with
           | [] => str "suspicious language"
           | first :: _ =>
               match toLowerCase first with
               | [] => str "suspicious language"
               | lowered => lowered
               end
           end
        ++ str " and other patterns suggest caution is warranted. Verify the sender through official channels before responding or clicking any links."
    | high =>
        [9888%N; 65039%N]
        ++ str " This message exhibits multiple high-risk characteristics typical of scam attempts. The combination of "
        ++ join (str " and ") (map toLowerCase (firstn 2 detected))
        ++ str " are major red flags. Do not click any links, provide personal information, or send money. Contact the organization directly using official contact information to verify."
    end.

Definition analyzeHeuristically (message : jsstring) : ScamAnalysisResult :=
  let detected := detectedPatterns (afterPersonalInfo message) in
  let riskScore := finalScore message in
  let riskLevel := levelOf riskScore in
  let uniquePhrases :=
    firstn 8 (Array_from_Set (phrases (afterPersonalInfo message))) in
  {| riskScore := riskScore;
     riskLevel := riskLevel;
     explanation := explain riskScore riskLevel detected;
     patterns := if (0 <? length detected)%nat then detected
                 else [noPatterns];
     suspiciousPhrases := uniquePhrases |}.

(** [analyzeMessage], given the value of [process.env.GEMINI_API_KEY]
    ([None] when it is not set) and the outcome the remote part of the
    [try] block has when it is run. *)
Definition analyzeMessage (GEMINI_API_KEY : option jsstring)
  (remote : Remote) (message : jsstring) : Returned :=
  let fallback := Built (analyzeHeuristically message) in
  match GEMINI_API_KEY with
  | None | Some [] => fallback
  | Some _ =>
      match remote with
      | CallFails | ParseFails => fallback
      | Parsed analysis =>
          match get analysis (str "riskScore") with
          | None => fallback
          | Some scoreField =>
              if negb (isNumber scoreField) then fallback
              else match get analysis (str "riskLevel") with
                   | None => fallback
                   | Some levelField =>
                       if negb (truthy levelField) then fallback
                       else Accepted analysis
                   end
          end
      end
  end.

(** *** The category step, read off the specification *)

(** The keywords of a category that occur in the lowercased message. *)
Definition spec_matched (messageLower : jsstring) (pattern : Pattern)
  : list jsstring :=
  filter (fun keyword => includes messageLower keyword) (keywords pattern).

Definition spec_hit (messageLower : jsstring) (pattern : Pattern) : bool :=
  existsb (fun keyword => includes messageLower keyword) (keywords pattern).

(** What one category adds to the running score. *)
Definition spec_contribution (messageLower : jsstring) (pattern : Pattern)
  : Z :=
  if spec_hit messageLower pattern
  then 15 + 5 * Z.of_nat (length (spec_matched messageLower pattern))
  else 0.

Definition catalog : list Pattern := map snd SCAM_PATTERNS.

Definition allKeywords : list jsstring := flat_map keywords catalog.

Definition total (l : list Z) : Z := fold_right Z.add 0%Z l.

(** The catalog keywords are lowercase literals: [keyword.toLowerCase()]
    gives the keyword back. *)
Definition keywordsLowercase : Prop :=
  forall keyword, In keyword allKeywords -> toLowerCase keyword = keyword.

(** The condition of the formatting check. *)
Definition formattingAnomaly (message : jsstring) : bool :=
  hasMultipleExclamations message || hasAllCaps message
  || hasPoorSpacing message.

(** The locals the loop leaves when the keywords that occur in the
    lowercased message are those that satisfy [g]. *)
Definition categoriesWith (g : jsstring -> bool) : Locals :=
  {| detectedPatterns :=
       map description (filter (fun p => existsb g (keywords p)) catalog);
     phrases := flat_map (fun p => firstn 3 (filter g (keywords p))) catalog;
     score :=
       total (map (fun p =>
                     if existsb g (keywords p)
                     then 15 + 5 * Z.of_nat (length (filter g (keywords p)))
                     else 0)%Z catalog) |}.

(** Nothing but the keyword [urgent] fires for [message]. *)
Definition noOtherSignal (message : jsstring) : Prop :=
  (forall keyword,
      In keyword allKeywords -> keyword <> str "urgent" ->
      includes (toLowerCase message) keyword = false)
  /\ formattingAnomaly message = false
  /\ hasShortenedLinks message = false
  /\ hasLinks message = false
  /\ hasPersonalInfoRequest (toLowerCase message) = false.

(** No catalog keyword and no sensitive-information keyword is a substring
    of the lowercased message. *)
Definition noKeywordMatch (message : jsstring) : Prop :=
  forall keyword,
    In keyword (allKeywords ++ personalInfoKeywords) ->
    includes (toLowerCase message) keyword = false.

(** The property claimed of short messages without keyword matches. *)
Definition shortBenignClaim (message : jsstring) : Prop :=
  noKeywordMatch message -> (length message < 50)%nat ->
  riskScore (analyzeHeuristically message) = 0%Z
  /\ riskLevel (analyzeHeuristically message) = low
  /\ patterns (analyzeHeuristically message) = [noPatterns].

(** [st'] has every pattern of [st] and at least its score. *)
Definition grows (st st' : Locals) : Prop :=
  (score st <= score st')%Z
  /\ incl (detectedPatterns st) (detectedPatterns st').

(** Boolean forms of the conditions above, to run them on a message. *)
Definition keywordsLowercaseb : bool :=
  forallb (fun keyword => eqb (toLowerCase keyword) keyword) allKeywords.

Definition noKeywordMatchb (message : jsstring) : bool :=
  forallb (fun keyword => negb (includes (toLowerCase message) keyword))
          (allKeywords ++ personalInfoKeywords).

Definition noOtherSignalb (message : jsstring) : bool :=
  forallb (fun keyword =>
             eqb keyword (str "urgent")
             || negb (includes (toLowerCase message) keyword))
          allKeywords
  && negb (formattingAnomaly message)
  && negb (hasShortenedLinks message)
  && negb (hasLinks message)
  && negb (hasPersonalInfoRequest (toLowerCase message)).

(** Every description the scorer can push. *)
Definition knownDescriptions : list jsstring :=
  map description catalog
  ++ [formattingDescription; shortenedDescription; linksDescription;
      personalInfoDescription].

(** Score and patterns move together: nothing pushed and nothing added, or
    something pushed and at least 10 added. *)
Definition consistent (st : Locals) : Prop :=
  (detectedPatterns st = [] /\ score st = 0%Z)
  \/ (detectedPatterns st <> [] /\ (10 <= score st)%Z).

(** *** The request handler *)

(** [POST]: the response, and [ipRequestCounts] as the call leaves it. *)
Definition POST (ipRequestCounts : RateMap) (request : Request)
  : Response * RateMap :=
  let ip := clientOf (forwardedFor request) in
  let userRate := rateStep ipRequestCounts ip (now request) in
  let store := Map_set ipRequestCounts ip userRate in
  let response :=
    if (MAX_REQUESTS_PER_WINDOW <? count userRate)%Z then
      {| status := 429;
         payload := Failure (str "Too many requests")
                            (str "RATE_LIMIT_EXCEEDED") |}
    else
      match json request with
      | None =>
          {| status := 400;
             payload := Failure (str "Invalid request format")
                                (str "INVALID_JSON") |}
      | Some body =>
          match get body (str "message") with
          | None =>
              {| status := 500;
                 payload := Failure (str "Analysis failed")
                                    (str "INTERNAL_SERVER_ERROR") |}
          | Some (Some (JString (c :: rest))) =>
              let message := c :: rest in
              if (length (trim message) =? 0)%nat then
                {| status := 400;
                   payload := Failure (str "Empty message")
                                      (str "EMPTY_MESSAGE") |}
              else if (10000 <? Z.of_nat (length message))%Z then
                {| status := 400;
                   payload := Failure (str "Message too long")
                                      (str "MESSAGE_TOO_LONG") |}
              else
                {| status := 200;
                   payload :=
                     Verdict (analyzeMessage (credential request)
                                (reply request) message) |}
          | Some _ =>
              {| status := 400;
                 payload := Failure (str "Invalid message format")
                                    (str "INVALID_MESSAGE_TYPE") |}
          end
      end in
  (response, store).

(** The handler run on requests one after the other. *)
Fixpoint serve (ipRequestCounts : RateMap) (requests : list Request)
  : list Response * RateMap :=
  match requests with
  | [] => ([], ipRequestCounts)
  | request :: rest =>
      let (response, store) := POST ipRequestCounts request in
      let (responses, final) := serve store rest in
      (response :: responses, final)
  end.

(** ** Facts about the primitives *)

Lemma eqb_eq (a b : jsstring) : eqb a b = true <-> a = b.
Proof.
  revert b; induction a as [|x a IH]; intros [|y b]; simpl;
    try (split; congruence).
  rewrite andb_true_iff, N.eqb_eq, IH. split.
  - intros [-> ->]; reflexivity.
  - intros E; injection E; auto.
Qed.

Lemma eqb_refl (a : jsstring) : eqb a a = true.
Proof. apply eqb_eq; reflexivity. Qed.

Lemma eqb_neq (a b : jsstring) : eqb a b = false <-> a <> b.
Proof.
  rewrite <- eqb_eq. destruct (eqb a b); split; congruence.
Qed.

Lemma startsWith_spec (s prefix : jsstring) :
  startsWith s prefix = true <-> exists rest, s = prefix ++ rest.
Proof.
  revert s; induction prefix as [|p prefix IH]; intros s; simpl.
  - split; [intros _; exists s; reflexivity | reflexivity].
  - destruct s as [|c s].
    + split; [discriminate | intros [rest E]; discriminate].
    + rewrite andb_true_iff, N.eqb_eq, IH. split.
      * intros [-> [rest ->]]. exists rest. reflexivity.
      * intros [rest E]. injection E as -> ->. eauto.
Qed.

(** [includes] finds exactly the substrings. *)
Lemma includes_spec (s search : jsstring) :
  includes s search = true <->
  exists before rest, s = before ++ search ++ rest.
Proof.
  induction s as [|c s IH]; cbn [includes].
  - rewrite orb_false_r, startsWith_spec. split.
    + intros [rest E]. exists [], rest. exact E.
    + intros [[|b before] [rest E]]; [eauto | discriminate].
  - rewrite orb_true_iff, startsWith_spec, IH. split.
    + intros [[rest E]|[before [rest E]]].
      * exists [], rest. exact E.
      * exists (c :: before), rest. rewrite E. reflexivity.
    + intros [[|b before] [rest E]].
      * left. exists rest. exact E.
      * right. injection E as -> ->. eauto.
Qed.

Lemma startsWith_i_spec (s prefix : jsstring) :
  startsWith_i s prefix = true <->
  exists found rest,
    s = found ++ rest /\ map canonicalize found = map canonicalize prefix.
Proof.
  revert s; induction prefix as [|p prefix IH]; intros s; simpl.
  - split; [intros _; exists [], s; split; reflexivity | reflexivity].
  - destruct s as [|c s].
    + split; [discriminate|].
      intros [[|f found] [rest [E M]]]; discriminate.
    + rewrite andb_true_iff, N.eqb_eq, IH. split.
      * intros [C [found [rest [-> M]]]]. exists (c :: found), rest.
        simpl. rewrite C, M. split; reflexivity.
      * intros [[|f found] [rest [E M]]]; [discriminate|].
        simpl in E, M. injection E as -> ->. injection M as C M. eauto.
Qed.

(** [test_i] finds exactly the substrings that equal the literal up to the
    case of ASCII letters. *)
Lemma test_i_spec (literal s : jsstring) :
  test_i literal s = true <->
  exists before found rest,
    s = before ++ found ++ rest
    /\ map canonicalize found = map canonicalize literal.
Proof.
  induction s as [|c s IH]; cbn [test_i].
  - rewrite orb_false_r, startsWith_i_spec. split.
    + intros [found [rest [E M]]]. exists [], found, rest. auto.
    + intros [[|b before] [found [rest [E M]]]]; [|discriminate].
      exists found, rest. auto.
  - rewrite orb_true_iff, startsWith_i_spec, IH. split.
    + intros [[found [rest [E M]]]|[before [found [rest [E M]]]]].
      * exists [], found, rest. auto.
      * exists (c :: before), found, rest. rewrite E. auto.
    + intros [[|b before] [found [rest [E M]]]].
      * left. exists found, rest. auto.
      * right. injection E as -> ->. exists before, found, rest. auto.
Qed.

Lemma existsb_eqb_In (x : jsstring) (l : list jsstring) :
  existsb (eqb x) l = true <-> In x l.
Proof.
  rewrite existsb_exists. split.
  - intros [y [Hy E]]. apply eqb_eq in E. subst; assumption.
  - intros H. exists x. split; [assumption | apply eqb_refl].
Qed.

Lemma Array_from_Set_snoc (l : list jsstring) (a : jsstring) :
  Array_from_Set (l ++ [a]) = Set_add (Array_from_Set l) a.
Proof. unfold Array_from_Set. rewrite fold_left_app. reflexivity. Qed.

Lemma Array_from_Set_In (l : list jsstring) (x : jsstring) :
  In x (Array_from_Set l) <-> In x l.
Proof.
  induction l as [|a l IH] using rev_ind.
  - reflexivity.
  - rewrite Array_from_Set_snoc. unfold Set_add.
    destruct (existsb (eqb a) (Array_from_Set l)) eqn:E.
    + apply existsb_eqb_In in E. rewrite in_app_iff. simpl.
      split; [intros H; left; apply IH; exact H|].
      intros [H|[<-|[]]]; [apply IH; exact H | exact E].
    + rewrite !in_app_iff, IH. reflexivity.
Qed.

Lemma Array_from_Set_NoDup (l : list jsstring) : NoDup (Array_from_Set l).
Proof.
  induction l as [|a l IH] using rev_ind.
  - constructor.
  - rewrite Array_from_Set_snoc. unfold Set_add.
    destruct (existsb (eqb a) (Array_from_Set l)) eqn:E; [assumption|].
    assert (Hn : ~ In a (Array_from_Set l)).
    { intros H. apply existsb_eqb_In in H. congruence. }
    apply NoDup_rev in IH. rewrite <- (rev_involutive (_ ++ _)).
    apply NoDup_rev. rewrite rev_app_distr. simpl. constructor.
    + rewrite <- in_rev. assumption.
    + assumption.
Qed.

Lemma indexOf_lt (x : jsstring) (l : list jsstring) (i : nat) :
  indexOf x l = Some i -> (i < length l)%nat.
Proof.
  revert i; induction l as [|y l IH]; simpl; intros i; [discriminate|].
  destruct (eqb x y).
  - intros E; injection E as <-. lia.
  - destruct (indexOf x l) as [k|]; [|discriminate].
    intros E; injection E as <-. specialize (IH k eq_refl). lia.
Qed.

Lemma indexOf_In (x : jsstring) (l : list jsstring) :
  In x l -> exists i, indexOf x l = Some i.
Proof.
  induction l as [|y l IH]; simpl; [intros []|].
  intros H. destruct (eqb x y) eqn:E; [eauto|].
  destruct H as [->|H]; [rewrite eqb_refl in E; discriminate|].
  destruct (IH H) as [i ->]. eauto.
Qed.

Lemma indexOf_app_l (x : jsstring) (l l' : list jsstring) (i : nat) :
  indexOf x l = Some i -> indexOf x (l ++ l') = Some i.
Proof.
  revert i; induction l as [|y l IH]; simpl; intros i; [discriminate|].
  destruct (eqb x y); [auto|].
  destruct (indexOf x l) as [k|]; [|discriminate].
  rewrite (IH k eq_refl). auto.
Qed.

Lemma indexOf_fresh (x : jsstring) (l : list jsstring) :
  ~ In x l -> indexOf x (l ++ [x]) = Some (length l).
Proof.
  induction l as [|y l IH]; simpl; intros H.
  - rewrite eqb_refl. reflexivity.
  - destruct (eqb x y) eqn:E.
    + apply eqb_eq in E. exfalso. apply H. left. congruence.
    + rewrite IH by tauto. reflexivity.
Qed.

Lemma Array_from_Set_order (l : list jsstring) :
  firstSeenOrder (Array_from_Set l) l.
Proof.
  induction l as [|a l IH] using rev_ind.
  - intros i j x y _ H. destruct i; discriminate.
  - rewrite Array_from_Set_snoc. unfold Set_add.
    destruct (existsb (eqb a) (Array_from_Set l)) eqn:E.
    + intros i j x y Hij Hx Hy.
      destruct (IH i j x y Hij Hx Hy) as [p [q [Hp [Hq Hpq]]]].
      exists p, q. auto using indexOf_app_l.
    + assert (Hn : ~ In a l).
      { intros H. apply (proj2 (Array_from_Set_In _ _)) in H.
        apply (proj2 (existsb_eqb_In _ _)) in H. congruence. }
      intros i j x y Hij Hx Hy.
      assert (Hj : (j < length (Array_from_Set l ++ [a]))%nat)
        by (apply nth_error_Some; congruence).
      rewrite length_app in Hj; simpl in Hj.
      rewrite nth_error_app1 in Hx by lia.
      destruct (Nat.eq_dec j (length (Array_from_Set l))) as [->|Hne].
      * rewrite nth_error_app2, Nat.sub_diag in Hy by lia.
        injection Hy as <-.
        apply nth_error_In in Hx.
        apply (proj1 (Array_from_Set_In _ _)) in Hx.
        destruct (indexOf_In _ _ Hx) as [p Hp].
        exists p, (length l). split; [auto using indexOf_app_l|].
        split; [apply indexOf_fresh; assumption|].
        eapply indexOf_lt; eassumption.
      * rewrite nth_error_app1 in Hy by lia.
        destruct (IH i j x y Hij Hx Hy) as [p [q [Hp [Hq Hpq]]]].
        exists p, q. auto using indexOf_app_l.
Qed.

Lemma In_firstn (A : Type) (n : nat) (l : list A) (x : A) :
  In x (firstn n l) -> In x l.
Proof.
  revert l; induction n as [|n IH]; intros [|y l]; simpl; try tauto.
  intros [H|H]; [left; exact H | right; apply IH; exact H].
Qed.

Lemma NoDup_firstn (A : Type) (n : nat) (l : list A) :
  NoDup l -> NoDup (firstn n l).
Proof.
  revert l; induction n as [|n IH]; intros [|y l] H; simpl;
    try constructor.
  - inversion H; subst. intros Hin. apply In_firstn in Hin. tauto.
  - inversion H; subst. apply IH. assumption.
Qed.

Lemma firstSeenOrder_firstn (n : nat) (out acc : list jsstring) :
  firstSeenOrder out acc -> firstSeenOrder (firstn n out) acc.
Proof.
  intros H i j x y Hij Hx Hy. rewrite nth_error_firstn in Hx, Hy.
  destruct (i <? n)%nat; [|discriminate].
  destruct (j <? n)%nat; [|discriminate].
  eapply H; eassumption.
Qed.

Lemma flat_map_ext_in (A B : Type) (f g : A -> list B) (l : list A) :
  (forall a, In a l -> f a = g a) -> flat_map f l = flat_map g l.
Proof.
  induction l as [|a l IH]; simpl; intros H; [reflexivity|].
  rewrite H, IH by auto. reflexivity.
Qed.

Lemma hit_length (f : jsstring -> bool) (l : list jsstring) :
  (0 <? length (filter f l))%nat = existsb f l.
Proof.
  induction l as [|x l IH]; simpl; [reflexivity|].
  destruct (f x); simpl; [reflexivity | exact IH].
Qed.

(** ** The category loop *)

Lemma fold_checkPattern (lower : jsstring)
  (entries : list (jsstring * Pattern)) (st : Locals) :
  let hit p := (0 <? length (matchedKeywords lower p))%nat in
  let add p :=
    if hit p
    then (15 + Z.of_nat (length (matchedKeywords lower p)) * 5)%Z
    else 0%Z in
  fold_left (checkPattern lower) entries st =
  {| detectedPatterns :=
       detectedPatterns st
       ++ map description (filter hit (map snd entries));
     phrases :=
       phrases st
       ++ flat_map (fun p => firstn 3 (matchedKeywords lower p))
                   (map snd entries);
     score := score st + total (map add (map snd entries)) |}.
Proof.
  intros hit add. revert st.
  induction entries as [|[key p] entries IH]; intros st; simpl.
  - rewrite !app_nil_r, Z.add_0_r. destruct st; reflexivity.
  - rewrite IH. unfold checkPattern; simpl. subst hit add; simpl.
    destruct (0 <? length (matchedKeywords lower p))%nat eqn:E; simpl.
    + rewrite <- !app_assoc. simpl. f_equal. lia.
    + apply Nat.ltb_ge in E.
      destruct (matchedKeywords lower p); [|simpl in E; lia].
      reflexivity.
Qed.

Lemma matchedKeywords_spec (lower : jsstring) (p : Pattern) :
  keywordsLowercase -> In p catalog ->
  matchedKeywords lower p = spec_matched lower p.
Proof.
  intros Hkw Hp. unfold matchedKeywords, spec_matched.
  apply filter_ext_in. intros kw Hin. rewrite Hkw; [reflexivity|].
  unfold allKeywords. apply in_flat_map. exists p. auto.
Qed.

Lemma afterCategories_spec (message : jsstring) :
  keywordsLowercase ->
  let lower := toLowerCase message in
  detectedPatterns (afterCategories message)
    = map description (filter (spec_hit lower) catalog)
  /\ phrases (afterCategories message)
       = flat_map (fun p => firstn 3 (spec_matched lower p)) catalog
  /\ score (afterCategories message)
       = total (map (spec_contribution lower) catalog).
Proof.
  intros Hkw lower.
  assert (Hspec : forall p, In p catalog ->
            matchedKeywords lower p = spec_matched lower p).
  { intros p Hp. apply matchedKeywords_spec; assumption. }
  assert (Hhit : forall p, In p catalog ->
            (0 <? length (matchedKeywords lower p))%nat = spec_hit lower p).
  { intros p Hp. rewrite Hspec by assumption. apply hit_length. }
  unfold afterCategories. fold lower. rewrite fold_checkPattern.
  change (map snd SCAM_PATTERNS) with catalog.
  set (cats := catalog) in *. clearbody cats.
  cbn [detectedPatterns phrases score initial app]. repeat split.
  - f_equal. apply filter_ext_in. exact Hhit.
  - apply flat_map_ext_in. intros p Hp. rewrite Hspec by assumption.
    reflexivity.
  - rewrite Z.add_0_l. f_equal. apply map_ext_in. intros p Hp.
    unfold spec_contribution. rewrite Hhit, Hspec by assumption.
    destruct (spec_hit lower p); lia.
Qed.

Lemma checkPattern_miss (lower : jsstring) (st : Locals)
  (entry : jsstring * Pattern) :
  keywordsLowercase -> In entry SCAM_PATTERNS ->
  spec_hit lower (snd entry) = false ->
  checkPattern lower st entry = st.
Proof.
  intros Hkw Hin Hno. unfold checkPattern. cbv zeta.
  assert (Hp : In (snd entry) catalog).
  { unfold catalog. apply in_map. exact Hin. }
  rewrite (matchedKeywords_spec lower Hkw Hp).
  unfold spec_matched. rewrite hit_length.
  fold (spec_hit lower (snd entry)). rewrite Hno. reflexivity.
Qed.

(** C1.  Provided [toLowerCase] leaves the lowercase catalog keywords as
    they are, the loop over the catalog visits the five categories in
    declaration order (urgentLanguage, paymentRequest, impersonation,
    prizes, threats) and leaves in the locals exactly: the descriptions of
    the categories with a keyword that is a substring of the lowercased
    message, in catalog order; for each category in turn the first three
    of its matching keywords, in keyword-list order; and the sum over the
    categories of 15 + 5 * (number of matching keywords) for a category
    with a match and of 0 for one without.  A category without a match
    leaves the locals as they were. *)
Theorem category_scan_spec (message : jsstring) :
  keywordsLowercase ->
  let lower := toLowerCase message in
  map fst SCAM_PATTERNS
    = map str ["urgentLanguage"; "paymentRequest"; "impersonation";
               "prizes"; "threats"]%string
  /\ detectedPatterns (afterCategories message)
       = map description (filter (spec_hit lower) catalog)
  /\ phrases (afterCategories message)
       = flat_map (fun p => firstn 3 (spec_matched lower p)) catalog
  /\ score (afterCategories message)
       = total (map (spec_contribution lower) catalog)
  /\ (forall st entry,
        In entry SCAM_PATTERNS -> spec_hit lower (snd entry) = false ->
        checkPattern lower st entry = st).
Proof.
  intros Hkw lower.
  split; [reflexivity|].
  destruct (afterCategories_spec message Hkw) as [Hd [Hp Hs]].
  repeat split; trivial.
  intros st entry Hin Hno. apply checkPattern_miss; assumption.
Qed.

(** ** The blocks after the loop *)

Lemma flag_consistent (d : jsstring) (n : Z) (st : Locals) :
  (10 <= n)%Z -> consistent st -> consistent (flag d n st).
Proof.
  intros Hn [[_ Hs]|[_ Hs]]; right; simpl; split;
    try (intros E; apply app_eq_nil in E; destruct E; discriminate); lia.
Qed.

Lemma checkPattern_consistent (lower : jsstring) (st : Locals)
  (entry : jsstring * Pattern) :
  consistent st -> consistent (checkPattern lower st entry).
Proof.
  intros H. unfold checkPattern.
  destruct (0 <? length (matchedKeywords lower (snd entry)))%nat;
    [|exact H].
  right; cbn [detectedPatterns score]; split.
  - intros E; apply app_eq_nil in E; destruct E; discriminate.
  - destruct H as [[_ Hs]|[_ Hs]]; lia.
Qed.

Lemma afterCategories_consistent (message : jsstring) :
  consistent (afterCategories message).
Proof.
  unfold afterCategories.
  assert (H : consistent initial) by (left; split; reflexivity).
  revert H. generalize initial.
  induction SCAM_PATTERNS as [|entry entries IH]; intros st H; simpl.
  - exact H.
  - apply IH, checkPattern_consistent, H.
Qed.

Lemma afterFormatting_consistent (message : jsstring) :
  consistent (afterFormatting message).
Proof.
  unfold afterFormatting, checkFormatting.
  destruct (_ || _ || _).
  - apply flag_consistent; [lia | apply afterCategories_consistent].
  - apply afterCategories_consistent.
Qed.

Lemma afterLinks_consistent (message : jsstring) :
  consistent (afterLinks message).
Proof.
  unfold afterLinks, checkLinks.
  destruct (hasShortenedLinks message);
    [|destruct (hasLinks message && _)];
    try (apply flag_consistent; [lia|]); apply afterFormatting_consistent.
Qed.

Lemma afterPersonalInfo_consistent (message : jsstring) :
  consistent (afterPersonalInfo message).
Proof.
  unfold afterPersonalInfo, checkPersonalInfo.
  destruct (hasPersonalInfoRequest (toLowerCase message));
    try (apply flag_consistent; [lia|]); apply afterLinks_consistent.
Qed.

(** The adjustment for short messages without patterns finds the score
    at 0 already. *)
Lemma finalScore_capped (message : jsstring) :
  finalScore message = cappedScore message.
Proof.
  unfold finalScore, cappedScore.
  destruct (afterPersonalInfo_consistent message) as [[Hp Hs]|[Hp Hs]].
  - rewrite Hp, Hs. simpl. destruct (length message <? 50)%nat; reflexivity.
  - destruct (detectedPatterns (afterPersonalInfo message));
      [congruence|]. simpl. rewrite andb_false_r. reflexivity.
Qed.

Lemma finalScore_range (message : jsstring) :
  (0 <= finalScore message <= 100)%Z.
Proof.
  rewrite finalScore_capped. unfold cappedScore.
  destruct (afterPersonalInfo_consistent message) as [[_ Hs]|[_ Hs]]; lia.
Qed.

Lemma phrases_checkFormatting (message : jsstring) (st : Locals) :
  phrases (checkFormatting message st) = phrases st.
Proof. unfold checkFormatting. destruct (_ || _ || _); reflexivity. Qed.

Lemma phrases_checkLinks (message : jsstring) (st : Locals) :
  phrases (checkLinks message st) = phrases st.
Proof.
  unfold checkLinks. destruct (hasShortenedLinks message);
    [|destruct (hasLinks message && _)]; reflexivity.
Qed.

Lemma phrases_checkPersonalInfo (lower : jsstring) (st : Locals) :
  phrases (checkPersonalInfo lower st) = phrases st.
Proof.
  unfold checkPersonalInfo. destruct (hasPersonalInfoRequest lower);
    reflexivity.
Qed.

Lemma phrases_afterPersonalInfo (message : jsstring) :
  phrases (afterPersonalInfo message) = phrases (afterCategories message).
Proof.
  unfold afterPersonalInfo, afterLinks, afterFormatting.
  rewrite phrases_checkPersonalInfo, phrases_checkLinks,
    phrases_checkFormatting.
  reflexivity.
Qed.

(** C3.  The score of the heuristic verdict lies between 0 and 100
    whatever fires, and the level is fixed by the score: low exactly for
    a score of at most 30, medium exactly for 31 to 70, high exactly
    above 70. *)
Theorem heuristic_score_and_level (message : jsstring) :
  let v := analyzeHeuristically message in
  (0 <= riskScore v <= 100)%Z
  /\ (riskLevel v = low <-> (riskScore v <= 30)%Z)
  /\ (riskLevel v = medium <-> (31 <= riskScore v <= 70)%Z)
  /\ (riskLevel v = high <-> (70 < riskScore v)%Z).
Proof.
  simpl. pose proof (finalScore_range message) as R.
  unfold levelOf.
  destruct (Z.leb_spec (finalScore message) 30);
    [|destruct (Z.leb_spec (finalScore message) 70)];
    repeat split; intros; try discriminate; try lia.
Qed.

(** C5.  The phrases of the heuristic verdict are at most 8, pairwise
    distinct, all taken from the keywords accumulated by the category
    loop, and listed in the order in which the accumulator first shows
    them; a keyword of the accumulator is left out only when the cap of 8
    is reached. *)
Theorem suspiciousPhrases_spec (message : jsstring) :
  let out := suspiciousPhrases (analyzeHeuristically message) in
  let acc := phrases (afterCategories message) in
  (length out <= 8)%nat
  /\ NoDup out
  /\ (forall x, In x out -> In x acc)
  /\ firstSeenOrder out acc
  /\ (forall x, In x acc -> In x out \/ length out = 8%nat).
Proof.
  unfold analyzeHeuristically. cbn [suspiciousPhrases].
  rewrite phrases_afterPersonalInfo.
  set (acc := phrases (afterCategories message)). cbv zeta.
  split; [apply firstn_le_length|].
  split; [apply NoDup_firstn, Array_from_Set_NoDup|].
  split; [intros x H; apply In_firstn in H; apply Array_from_Set_In, H|].
  split; [apply firstSeenOrder_firstn, Array_from_Set_order|].
  intros x H. apply (proj2 (Array_from_Set_In _ _)) in H.
  destruct (Nat.le_gt_cases (length (Array_from_Set acc)) 8) as [L|L].
  - left. rewrite firstn_all2 by exact L. exact H.
  - right. apply firstn_length_le. lia.
Qed.

(** ** Which descriptions can be pushed *)

Lemma afterCategories_known (message : jsstring) (d : jsstring) :
  In d (detectedPatterns (afterCategories message)) ->
  In d (map description catalog).
Proof.
  unfold afterCategories. rewrite fold_checkPattern.
  cbn [detectedPatterns initial app]. fold catalog.
  rewrite !in_map_iff. intros [p [E H]]. apply filter_In in H.
  exists p. tauto.
Qed.

Lemma afterPersonalInfo_known (message : jsstring) (d : jsstring) :
  In d (detectedPatterns (afterPersonalInfo message)) ->
  In d knownDescriptions.
Proof.
  unfold afterPersonalInfo, checkPersonalInfo, afterLinks, checkLinks,
    afterFormatting, checkFormatting, knownDescriptions.
  pose proof (afterCategories_known message d) as K.
  destruct (hasPersonalInfoRequest (toLowerCase message));
    destruct (hasShortenedLinks message);
    destruct (hasMultipleExclamations message || hasAllCaps message
              || hasPoorSpacing message);
    try destruct (hasLinks message && _);
    cbn [flag detectedPatterns]; rewrite ?in_app_iff; simpl; tauto.
Qed.

Lemma noPatterns_unknown : ~ In noPatterns knownDescriptions.
Proof.
  intros H. vm_compute in H.
  repeat (destruct H as [H|H]; [discriminate H|]). exact H.
Qed.

(** C10.  The list of detected patterns is empty exactly when the final
    score is 0; the adjustment for short messages never changes the score
    left by the cap at 100; and the sentinel [No scam patterns detected]
    occurs in the patterns of the verdict exactly when the score is 0, in
    which case it is the only entry. *)
Theorem patterns_empty_iff_score_zero (message : jsstring) :
  let v := analyzeHeuristically message in
  let detected := detectedPatterns (afterPersonalInfo message) in
  (detected = [] <-> riskScore v = 0%Z)
  /\ riskScore v = cappedScore message
  /\ (In noPatterns (patterns v) <-> riskScore v = 0%Z)
  /\ (patterns v = [noPatterns] <-> riskScore v = 0%Z).
Proof.
  unfold analyzeHeuristically. cbn [riskScore patterns]. cbv zeta.
  rewrite finalScore_capped. unfold cappedScore.
  pose proof (afterPersonalInfo_known message noPatterns) as K.
  pose proof noPatterns_unknown as U.
  destruct (afterPersonalInfo_consistent message) as [[Hp Hs]|[Hp Hs]].
  - rewrite Hp, Hs. simpl. repeat split; auto.
  - destruct (detectedPatterns (afterPersonalInfo message)) as [|d ds] eqn:E;
      [congruence|].
    cbn [length Nat.ltb Nat.leb].
    repeat split; try (intros; lia); try discriminate.
    + intros H. exfalso. apply U, K, H.
    + intros H. exfalso. apply U, K. rewrite H. left; reflexivity.
Qed.

Lemma filter_nil_iff (A : Type) (f : A -> bool) (l : list A) :
  filter f l = [] <-> forall x, In x l -> f x = false.
Proof.
  induction l as [|a l IH]; simpl.
  - split; [intros _ x [] | reflexivity].
  - destruct (f a) eqn:E.
    + split; [discriminate|]. intros H. rewrite (H a) in E by auto.
      discriminate.
    + rewrite IH. split.
      * intros H x [<-|Hx]; auto.
      * intros H x Hx. apply H. auto.
Qed.

(** Nothing is pushed before the link check exactly when no category has
    a matching keyword and the formatting check stays silent. *)
Lemma afterFormatting_nil (message : jsstring) :
  detectedPatterns (afterFormatting message) = [] <->
  (forall p, In p catalog -> matchedKeywords (toLowerCase message) p = [])
  /\ formattingAnomaly message = false.
Proof.
  unfold afterFormatting, checkFormatting. fold (formattingAnomaly message).
  assert (C : detectedPatterns (afterCategories message) = [] <->
              forall p, In p catalog ->
                        matchedKeywords (toLowerCase message) p = []).
  { unfold afterCategories. rewrite fold_checkPattern.
    cbn [detectedPatterns initial app]. fold catalog. split.
    - intros H p Hp. apply map_eq_nil in H.
      pose proof (proj1 (filter_nil_iff _ _) H p Hp) as E.
      apply Nat.ltb_ge in E.
      destruct (matchedKeywords (toLowerCase message) p);
        [reflexivity | simpl in E; lia].
    - intros H.
      replace (filter _ catalog) with (@nil Pattern); [reflexivity|].
      symmetry. apply filter_nil_iff. intros p Hp. rewrite (H p Hp).
      reflexivity. }
  destruct (formattingAnomaly message).
  - cbn [flag detectedPatterns]. split.
    + intros E. apply app_eq_nil in E. destruct E; discriminate.
    + intros [_ E]. discriminate.
  - rewrite C. split; [intros H; split; [exact H | reflexivity] | tauto].
Qed.

(** C4.  The link check either finds a shortened-link pattern, pushes
    [Shortened or suspicious URLs] and adds 20; or, finding none but a
    generic URL pattern in a message for which the category loop or the
    formatting check has pushed a pattern, pushes [Contains links (verify
    before clicking)] and adds 10; or else, in particular for a generic
    URL with nothing pushed before, leaves the locals as they were.
    Nothing was pushed before exactly when no category has a matching
    keyword and the formatting check found no anomaly. *)
Theorem link_check_spec (message : jsstring) :
  let before := afterFormatting message in
  let after := afterLinks message in
  (hasShortenedLinks message = true ->
     detectedPatterns after = detectedPatterns before ++ [shortenedDescription]
     /\ score after = (score before + 20)%Z)
  /\ (hasShortenedLinks message = false -> hasLinks message = true ->
      detectedPatterns before <> [] ->
      detectedPatterns after = detectedPatterns before ++ [linksDescription]
      /\ score after = (score before + 10)%Z)
  /\ (hasShortenedLinks message = false ->
      hasLinks message = false \/ detectedPatterns before = [] ->
      after = before)
  /\ (detectedPatterns before = [] <->
      (forall p, In p catalog ->
                 matchedKeywords (toLowerCase message) p = [])
      /\ formattingAnomaly message = false).
Proof.
  intros before after. subst before after.
  split; [|split; [|split; [|apply afterFormatting_nil]]];
    unfold afterLinks, checkLinks.
  - intros S. rewrite S. split; reflexivity.
  - intros S L D. rewrite S, L.
    replace (0 <? length (detectedPatterns (afterFormatting message)))%nat
      with true; [split; reflexivity|].
    destruct (detectedPatterns (afterFormatting message));
      [congruence | reflexivity].
  - intros S [L|D]; rewrite S.
    + rewrite L. reflexivity.
    + rewrite D, andb_false_r. reflexivity.
Qed.

(** Whatever [analyzeMessage] builds itself is the heuristic verdict. *)
Lemma analyzeMessage_Built (GEMINI_API_KEY : option jsstring)
  (remote : Remote) (message : jsstring) (result : ScamAnalysisResult) :
  analyzeMessage GEMINI_API_KEY remote message = Built result ->
  result = analyzeHeuristically message.
Proof.
  unfold analyzeMessage. cbv zeta. intros H.
  assert (F : forall r, Built (analyzeHeuristically message) = Built r ->
                        r = analyzeHeuristically message)
    by (intros r E; injection E; auto).
  destruct GEMINI_API_KEY as [[|c key]|]; try (apply F; exact H).
  destruct remote as [| |analysis]; try (apply F; exact H).
  destruct (get analysis (str "riskScore")) as [scoreField|];
    try (apply F; exact H).
  destruct (negb (isNumber scoreField)); try (apply F; exact H).
  destruct (get analysis (str "riskLevel")) as [levelField|];
    try (apply F; exact H).
  destruct (negb (truthy levelField)); try (apply F; exact H).
  discriminate H.
Qed.

(** C6.  The heuristic verdict is a function of the message alone: two
    calls on the same message agree on every field, and two runs of
    [analyzeMessage] that both end on the heuristic path return the same
    verdict for the same message whatever the credential and the remote
    outcome of each run were. *)
Theorem heuristic_deterministic (message : jsstring) :
  (let first := analyzeHeuristically message in
   let second := analyzeHeuristically message in
   riskScore first = riskScore second
   /\ riskLevel first = riskLevel second
   /\ explanation first = explanation second
   /\ patterns first = patterns second
   /\ suspiciousPhrases first = suspiciousPhrases second)
  /\ (forall key1 remote1 key2 remote2 result1 result2,
        analyzeMessage key1 remote1 message = Built result1 ->
        analyzeMessage key2 remote2 message = Built result2 ->
        result1 = result2).
Proof.
  split.
  - intros first second. subst first second.
    split; [reflexivity|]. split; [reflexivity|]. split; [reflexivity|].
    split; reflexivity.
  - intros key1 remote1 key2 remote2 result1 result2 H1 H2.
    apply analyzeMessage_Built in H1. apply analyzeMessage_Built in H2.
    congruence.
Qed.

(** ** The orchestrator *)

Lemma explain_nonempty (riskScore : Z) (riskLevel : RiskLevel)
  (detected : list jsstring) :
  eqb (explain riskScore riskLevel detected) [] = false.
Proof.
  unfold explain. destruct (riskScore =? 0)%Z; [reflexivity|].
  destruct riskLevel; reflexivity.
Qed.

Lemma heuristic_recordInvariants (message : jsstring) :
  recordInvariants (analyzeHeuristically message) = true.
Proof.
  unfold recordInvariants, analyzeHeuristically.
  cbn [riskScore riskLevel explanation]. cbv zeta.
  pose proof (finalScore_range message) as [Lo Hi].
  rewrite explain_nonempty.
  apply Z.leb_le in Lo. apply Z.leb_le in Hi. rewrite Lo, Hi.
  destruct (levelOf (finalScore message)); reflexivity.
Qed.

(** C2.  [analyzeMessage] always resolves to a verdict: the heuristic
    verdict of the message, or the parsed value of the remote response.
    When the credential is absent, or the remote call fails, or the
    response cannot be parsed, or the parsed value has no numeric score or
    no tier value, it resolves to the heuristic verdict of the message. *)
Theorem analyzeMessage_falls_back (GEMINI_API_KEY : option jsstring)
  (remote : Remote) (message : jsstring) :
  (analyzeMessage GEMINI_API_KEY remote message
     = Built (analyzeHeuristically message)
   \/ exists analysis,
        remote = Parsed analysis
        /\ analyzeMessage GEMINI_API_KEY remote message = Accepted analysis)
  /\ (credentialAbsent GEMINI_API_KEY = true
      \/ remote = CallFails
      \/ remote = ParseFails
      \/ (exists analysis,
            remote = Parsed analysis
            /\ (hasNumericScore analysis = false
                \/ hasLevel analysis = false)) ->
      analyzeMessage GEMINI_API_KEY remote message
        = Built (analyzeHeuristically message)).
Proof.
  unfold analyzeMessage, credentialAbsent, hasNumericScore, hasLevel.
  cbv zeta. split.
  - destruct GEMINI_API_KEY as [[|c key]|]; try (left; reflexivity).
    destruct remote as [| |analysis]; try (left; reflexivity).
    destruct (get analysis (str "riskScore")) as [scoreField|];
      try (left; reflexivity).
    destruct (isNumber scoreField); try (left; reflexivity).
    cbn [negb].
    destruct (get analysis (str "riskLevel")) as [levelField|];
      try (left; reflexivity).
    destruct (truthy levelField); [|left; reflexivity].
    right. exists analysis. split; reflexivity.
  - intros [H|[H|[H|[analysis [H [F|F]]]]]].
    + destruct GEMINI_API_KEY as [[|c key]|]; [reflexivity|discriminate|
        reflexivity].
    + subst. destruct GEMINI_API_KEY as [[|c key]|]; reflexivity.
    + subst. destruct GEMINI_API_KEY as [[|c key]|]; reflexivity.
    + subst. destruct GEMINI_API_KEY as [[|c key]|]; try reflexivity.
      destruct (get analysis (str "riskScore")) as [[v|]|];
        try reflexivity.
      destruct v; try reflexivity. discriminate.
    + subst. destruct GEMINI_API_KEY as [[|c key]|]; try reflexivity.
      destruct (get analysis (str "riskScore")) as [scoreField|];
        [|reflexivity].
      destruct (isNumber scoreField); [|reflexivity]. cbn [negb].
      destruct (get analysis (str "riskLevel")) as [[v|]|];
        try reflexivity.
      discriminate.
Qed.

(** C9, as the code has it.  A verdict of [analyzeMessage] that comes
    from the heuristic path has an integer score between 0 and 100, one of
    the three levels and a non-empty explanation.  A verdict accepted from
    the remote classifier is the parsed value itself, of which the guard
    establishes only that its score is a number and its level is truthy. *)
Theorem analyzeMessage_verdict_shape (GEMINI_API_KEY : option jsstring)
  (remote : Remote) (message : jsstring) :
  match analyzeMessage GEMINI_API_KEY remote message with
  | Built result =>
      result = analyzeHeuristically message
      /\ recordInvariants result = true
  | Accepted analysis =>
      remote = Parsed analysis
      /\ (exists n, get analysis (str "riskScore") = Some (Some (JNumber n)))
      /\ (exists level,
            get analysis (str "riskLevel") = Some level
            /\ truthy level = true)
  end.
Proof.
  pose proof (heuristic_recordInvariants message) as I.
  assert (Fallback :
    analyzeHeuristically message = analyzeHeuristically message
    /\ recordInvariants (analyzeHeuristically message) = true)
    by (split; [reflexivity | exact I]).
  unfold analyzeMessage. cbv zeta.
  destruct GEMINI_API_KEY as [[|c key]|]; try exact Fallback.
  destruct remote as [| |analysis]; try exact Fallback.
  destruct (get analysis (str "riskScore")) as [[v|]|] eqn:S;
    try exact Fallback.
  destruct v; try exact Fallback. cbn [isNumber negb].
  destruct (get analysis (str "riskLevel")) as [levelField|] eqn:L;
    try exact Fallback.
  destruct (truthy levelField) eqn:T; try exact Fallback. cbn [negb].
  split; [reflexivity|]. split; [exists n; exact S|].
  exists levelField. split; [exact L | exact T].
Qed.

(** ** Messages with one signal, and with none *)

Lemma occurrences_includes (s search : jsstring) :
  (0 < occurrences s search)%nat <-> includes s search = true.
Proof.
  induction s as [|c s IH].
  - destruct search; simpl; split; intros H;
      try reflexivity; try lia; try discriminate.
  - cbn [occurrences includes].
    destruct (startsWith (c :: s) search); simpl.
    + split; intros H; [reflexivity | lia].
    + exact IH.
Qed.

Lemma existsb_false (A : Type) (f : A -> bool) (l : list A) :
  (forall x, In x l -> f x = false) -> existsb f l = false.
Proof.
  induction l as [|x l IH]; simpl; intros H; [reflexivity|].
  rewrite H, IH by auto. reflexivity.
Qed.

Lemma existsb_ext_in (A : Type) (f g : A -> bool) (l : list A) :
  (forall x, In x l -> f x = g x) -> existsb f l = existsb g l.
Proof.
  induction l as [|x l IH]; simpl; intros H; [reflexivity|].
  rewrite H, IH by auto. reflexivity.
Qed.

Lemma In_allKeywords (p : Pattern) (keyword : jsstring) :
  In p catalog -> In keyword (keywords p) -> In keyword allKeywords.
Proof.
  intros Hp Hk. unfold allKeywords. apply in_flat_map. exists p. auto.
Qed.

(** The locals after the loop, when the matches are known to follow [g]. *)
Lemma afterCategories_ext (message : jsstring) (g : jsstring -> bool) :
  keywordsLowercase ->
  (forall keyword,
      In keyword allKeywords ->
      includes (toLowerCase message) keyword = g keyword) ->
  afterCategories message = categoriesWith g.
Proof.
  intros Hkw Hg. unfold categoriesWith.
  destruct (afterCategories_spec message Hkw) as [Hd [Hp Hs]].
  destruct (afterCategories message) as [d ph sc].
  cbn [detectedPatterns phrases score] in Hd, Hp, Hs. subst d ph sc.
  assert (Hm : forall p, In p catalog ->
            spec_matched (toLowerCase message) p = filter g (keywords p)).
  { intros p Hin. apply filter_ext_in. intros kw Hk.
    apply Hg. eapply In_allKeywords; eassumption. }
  assert (Hh : forall p, In p catalog ->
            spec_hit (toLowerCase message) p = existsb g (keywords p)).
  { intros p Hin. apply existsb_ext_in. intros kw Hk.
    apply Hg. eapply In_allKeywords; eassumption. }
  f_equal.
  - f_equal. apply filter_ext_in. exact Hh.
  - apply flat_map_ext_in. intros p Hin. rewrite Hm by exact Hin.
    reflexivity.
  - f_equal. apply map_ext_in. intros p Hin. unfold spec_contribution.
    rewrite Hh, Hm by exact Hin. reflexivity.
Qed.

Lemma flag_grows (d : jsstring) (n : Z) (st : Locals) :
  (0 <= n)%Z -> grows st (flag d n st).
Proof.
  intros Hn. split; simpl; [lia|]. apply incl_appl, incl_refl.
Qed.

Lemma grows_refl (st : Locals) : grows st st.
Proof. split; [lia | apply incl_refl]. Qed.

Lemma grows_trans (a b c : Locals) : grows a b -> grows b c -> grows a c.
Proof.
  intros [S1 I1] [S2 I2]. split; [lia | eapply incl_tran; eassumption].
Qed.

Lemma afterPersonalInfo_grows (message : jsstring) :
  grows (afterCategories message) (afterPersonalInfo message).
Proof.
  unfold afterPersonalInfo, afterLinks, afterFormatting.
  set (st0 := afterCategories message).
  apply grows_trans with (checkFormatting message st0).
  { unfold checkFormatting. destruct (_ || _ || _);
      [apply flag_grows; lia | apply grows_refl]. }
  set (st1 := checkFormatting message st0).
  apply grows_trans with (checkLinks message st1).
  { unfold checkLinks. destruct (hasShortenedLinks message);
      [|destruct (hasLinks message && _)];
      try (apply flag_grows; lia); apply grows_refl. }
  unfold checkPersonalInfo.
  destruct (hasPersonalInfoRequest (toLowerCase message));
    [apply flag_grows; lia | apply grows_refl].
Qed.

Lemma spec_contribution_nonneg (lower : jsstring) (p : Pattern) :
  (0 <= spec_contribution lower p)%Z.
Proof. unfold spec_contribution. destruct (spec_hit lower p); lia. Qed.

Lemma spec_contribution_hit (lower : jsstring) (p : Pattern) :
  spec_hit lower p = true -> (20 <= spec_contribution lower p)%Z.
Proof.
  intros H. unfold spec_contribution. rewrite H.
  unfold spec_hit in H. rewrite <- hit_length in H.
  apply Nat.ltb_lt in H. unfold spec_matched. lia.
Qed.

Lemma total_hit (lower : jsstring) (p : Pattern) (cats : list Pattern) :
  In p cats -> spec_hit lower p = true ->
  (20 <= total (map (spec_contribution lower) cats))%Z.
Proof.
  intros Hin Hhit. induction cats as [|q cats IH]; [destruct Hin|].
  simpl. pose proof (spec_contribution_nonneg lower q) as Hq.
  destruct Hin as [->|Hin].
  - pose proof (spec_contribution_hit lower p Hhit).
    assert (0 <= total (map (spec_contribution lower) cats))%Z; [|lia].
    clear. induction cats as [|r cats IH]; simpl; [lia|].
    pose proof (spec_contribution_nonneg lower r). lia.
  - specialize (IH Hin). lia.
Qed.

Lemma levelOf_low (z : Z) : levelOf z = low <-> (z <= 30)%Z.
Proof.
  unfold levelOf. destruct (Z.leb_spec z 30);
    [|destruct (Z.leb_spec z 70)]; split; intros; try discriminate;
    try reflexivity; lia.
Qed.

(** The locals at the end, when only the category loop pushes. *)
Lemma afterPersonalInfo_quiet (message : jsstring) :
  formattingAnomaly message = false ->
  hasShortenedLinks message = false ->
  hasLinks message = false
  \/ detectedPatterns (afterCategories message) = [] ->
  hasPersonalInfoRequest (toLowerCase message) = false ->
  afterPersonalInfo message = afterCategories message.
Proof.
  intros F S L P.
  unfold afterPersonalInfo, checkPersonalInfo, afterLinks, checkLinks,
    afterFormatting, checkFormatting.
  unfold formattingAnomaly in F. rewrite P, S, F.
  destruct L as [L|L]; rewrite L; [reflexivity|].
  rewrite andb_false_r. reflexivity.
Qed.

(** C7.  Provided [toLowerCase] leaves the catalog keywords as they are,
    a message whose lowercased text holds [urgent] exactly once gets a
    verdict whose patterns include [Urgent or time-pressured language] and
    whose score is at least 20; its level is low exactly when the score
    is at most 30; and when nothing else fires (no other catalog keyword,
    no formatting anomaly, no link, no sensitive-information keyword) the
    score is 20 and the level low. *)
Theorem urgent_once_spec (message : jsstring) :
  keywordsLowercase ->
  occurrences (toLowerCase message) (str "urgent") = 1%nat ->
  let v := analyzeHeuristically message in
  In (str "Urgent or time-pressured language") (patterns v)
  /\ (20 <= riskScore v)%Z
  /\ (riskLevel v = low <-> (riskScore v <= 30)%Z)
  /\ (noOtherSignal message -> riskScore v = 20%Z /\ riskLevel v = low).
Proof.
  intros Hkw Hocc.
  set (lower := toLowerCase message) in *.
  assert (Hinc : includes lower (str "urgent") = true)
    by (apply occurrences_includes; lia).
  assert (Hhit : spec_hit lower urgentLanguage = true).
  { unfold spec_hit. apply existsb_exists. exists (str "urgent").
    split; [left; reflexivity | exact Hinc]. }
  destruct (afterCategories_spec message Hkw) as [Hd [_ Hs]].
  fold lower in Hd, Hs.
  assert (Hin : In (description urgentLanguage)
                   (detectedPatterns (afterCategories message))).
  { rewrite Hd. apply in_map, filter_In.
    split; [left; reflexivity | exact Hhit]. }
  assert (Hsc : (20 <= score (afterCategories message))%Z).
  { rewrite Hs. apply total_hit with urgentLanguage;
      [left; reflexivity | exact Hhit]. }
  destruct (afterPersonalInfo_grows message) as [G1 G2].
  apply G2 in Hin.
  unfold analyzeHeuristically. cbn [riskScore riskLevel patterns]. cbv zeta.
  rewrite finalScore_capped. unfold cappedScore.
  split; [|split; [lia|split; [apply levelOf_low|]]].
  - destruct (detectedPatterns (afterPersonalInfo message));
      [destruct Hin | exact Hin].
  - intros [N1 [N2 [N3 [N4 N5]]]]. fold lower in N1, N5.
    assert (Hg : forall keyword, In keyword allKeywords ->
              includes lower keyword = eqb (str "urgent") keyword).
    { intros keyword Hk. destruct (eqb (str "urgent") keyword) eqn:E.
      - apply eqb_eq in E. subst keyword. exact Hinc.
      - apply N1; [exact Hk|]. intros ->. rewrite eqb_refl in E.
        discriminate. }
    rewrite (afterPersonalInfo_quiet message N2 N3 (or_introl N4) N5).
    rewrite (afterCategories_ext message _ Hkw Hg).
    split; reflexivity.
Qed.

(** C8, as the code has it.  Provided [toLowerCase] leaves the catalog
    keywords as they are, a message shorter than 50 code units in which no
    catalog keyword and no sensitive-information keyword occurs, which
    shows no formatting anomaly and no shortened-link pattern, gets score
    0, level low and the single pattern [No scam patterns detected]. *)
Theorem short_clean_message_spec (message : jsstring) :
  keywordsLowercase ->
  noKeywordMatch message ->
  (length message < 50)%nat ->
  formattingAnomaly message = false ->
  hasShortenedLinks message = false ->
  let v := analyzeHeuristically message in
  riskScore v = 0%Z /\ riskLevel v = low /\ patterns v = [noPatterns].
Proof.
  intros Hkw Hno Hlen Hfmt Hshort.
  assert (Hg : forall keyword, In keyword allKeywords ->
            includes (toLowerCase message) keyword
            = (fun _ => false) keyword).
  { intros keyword Hk. apply Hno, in_or_app. left; exact Hk. }
  assert (Hcat : afterCategories message = initial).
  { rewrite (afterCategories_ext message _ Hkw Hg). reflexivity. }
  assert (Hpi : hasPersonalInfoRequest (toLowerCase message) = false).
  { apply existsb_false. intros keyword Hk.
    apply Hno, in_or_app. right; exact Hk. }
  assert (Hend : afterPersonalInfo message = initial).
  { rewrite afterPersonalInfo_quiet; trivial.
    right. rewrite Hcat. reflexivity. }
  unfold analyzeHeuristically, finalScore, cappedScore.
  cbn [riskScore riskLevel patterns]. cbv zeta. rewrite Hend.
  apply Nat.ltb_lt in Hlen. rewrite Hlen. repeat split.
Qed.

(** *** Running the conditions *)

Lemma keywordsLowercaseb_sound :
  keywordsLowercaseb = true -> keywordsLowercase.
Proof.
  unfold keywordsLowercaseb, keywordsLowercase. rewrite forallb_forall.
  intros H keyword Hin. apply eqb_eq, H, Hin.
Qed.

Lemma noKeywordMatchb_sound (message : jsstring) :
  noKeywordMatchb message = true -> noKeywordMatch message.
Proof.
  unfold noKeywordMatchb, noKeywordMatch. rewrite forallb_forall.
  intros H keyword Hin. apply negb_true_iff, H, Hin.
Qed.

Lemma noOtherSignalb_sound (message : jsstring) :
  noOtherSignalb message = true -> noOtherSignal message.
Proof.
  unfold noOtherSignalb, noOtherSignal.
  rewrite !andb_true_iff, !negb_true_iff, forallb_forall.
  intros [[[[K F] S] L] P]. repeat split; trivial.
  intros keyword Hin Hne. specialize (K keyword Hin).
  apply orb_true_iff in K. destruct K as [K|K].
  - apply eqb_eq in K. contradiction.
  - apply negb_true_iff in K. exact K.
Qed.

(** ** Cleaning the text of the remote response *)

Lemma trimStart_all (s : jsstring) :
  forallb isWhiteSpace s = true -> trimStart s = [].
Proof.
  induction s as [|c s IH]; simpl; [reflexivity|].
  destruct (isWhiteSpace c); [exact IH | discriminate].
Qed.

Lemma trimStart_nil_iff (s : jsstring) :
  trimStart s = [] <-> forallb isWhiteSpace s = true.
Proof.
  split; [|apply trimStart_all].
  induction s as [|c s IH]; simpl; [reflexivity|].
  destruct (isWhiteSpace c); [exact IH | discriminate].
Qed.

Lemma forallb_trimStart (s : jsstring) :
  forallb isWhiteSpace (trimStart s) = forallb isWhiteSpace s.
Proof.
  induction s as [|c s IH]; simpl; [reflexivity|].
  destruct (isWhiteSpace c) eqn:W; simpl; [exact IH|].
  rewrite W. reflexivity.
Qed.

Lemma forallb_rev (A : Type) (f : A -> bool) (l : list A) :
  forallb f (rev l) = forallb f l.
Proof.
  induction l as [|a l IH]; simpl; [reflexivity|].
  rewrite forallb_app, IH. simpl. rewrite andb_true_r. apply andb_comm.
Qed.

Lemma trimStart_snoc (s : jsstring) (c : N) :
  forallb isWhiteSpace s = false -> trimStart (s ++ [c]) = trimStart s ++ [c].
Proof.
  induction s as [|d s IH]; simpl; [discriminate|].
  destruct (isWhiteSpace d); [exact IH | reflexivity].
Qed.

Lemma trimEnd_snoc (s : jsstring) (c : N) :
  isWhiteSpace c = true -> trimEnd (s ++ [c]) = trimEnd s.
Proof.
  intros W. unfold trimEnd. rewrite rev_app_distr. simpl. rewrite W.
  reflexivity.
Qed.

Lemma trim_cons (c : N) (s : jsstring) :
  isWhiteSpace c = true -> trim (c :: s) = trim s.
Proof. intros W. unfold trim. simpl. rewrite W. reflexivity. Qed.

Lemma trim_snoc (s : jsstring) (c : N) :
  isWhiteSpace c = true -> trim (s ++ [c]) = trim s.
Proof.
  intros W. unfold trim.
  destruct (forallb isWhiteSpace s) eqn:A.
  - rewrite (trimStart_all s A), trimStart_all; [reflexivity|].
    rewrite forallb_app, A. simpl. rewrite W. reflexivity.
  - rewrite trimStart_snoc by exact A. apply trimEnd_snoc, W.
Qed.

(** A string trims to nothing exactly when it is white space throughout. *)
Lemma trim_empty_iff (s : jsstring) :
  length (trim s) = 0%nat <-> forallb isWhiteSpace s = true.
Proof.
  unfold trim, trimEnd.
  rewrite length_rev, length_zero_iff_nil, trimStart_nil_iff, forallb_rev,
    forallb_trimStart.
  reflexivity.
Qed.

Lemma length_trimStart (s : jsstring) :
  (length (trimStart s) <= length s)%nat.
Proof.
  induction s as [|c s IH]; simpl; [lia|].
  destruct (isWhiteSpace c); simpl; lia.
Qed.

Lemma length_trim (s : jsstring) : (length (trim s) <= length s)%nat.
Proof.
  unfold trim, trimEnd. rewrite length_rev.
  pose proof (length_trimStart (rev (trimStart s))) as H.
  rewrite length_rev in H. pose proof (length_trimStart s). lia.
Qed.

Lemma length_stripFrom (skip : nat) (s : jsstring) :
  (length (stripFrom skip s) <= length s)%nat.
Proof.
  revert skip; induction s as [|c s IH]; intros skip; [simpl; lia|].
  cbn [stripFrom].
  destruct skip as [|k]; [|specialize (IH k); simpl; lia].
  repeat match goal with
         | |- context [if ?b then _ else _] => destruct b
         end;
    simpl;
    match goal with
    | |- (length (stripFrom ?k s) <= _)%nat => specialize (IH k); lia
    | |- (S (length (stripFrom ?k s)) <= _)%nat => specialize (IH k); lia
    end.
Qed.

Lemma startsWith_app (s p q : jsstring) :
  startsWith s (p ++ q) = true -> startsWith s p = true.
Proof.
  revert s; induction p as [|a p IH]; intros s; simpl; [reflexivity|].
  destruct s as [|c s]; [discriminate|].
  rewrite !andb_true_iff. intros [E H]. split; [exact E | apply IH, H].
Qed.

Lemma stripFrom_plain (s : jsstring) :
  includes s (str "```") = false -> stripFrom 0 s = s.
Proof.
  induction s as [|c s IH]; [reflexivity|].
  cbn [includes]. rewrite orb_false_iff. intros [H0 H1].
  cbn [stripFrom].
  assert (F1 : startsWith (c :: s) (str "```json") = false).
  { destruct (startsWith (c :: s) (str "```json")) eqn:E; [|reflexivity].
    change (str "```json") with (str "```" ++ str "json") in E.
    apply startsWith_app in E. congruence. }
  assert (F2 : startsWith (c :: s) (10%N :: str "```") = false).
  { cbn [startsWith]. fold (startsWith s (str "```")).
    destruct s as [|d s]; [apply andb_false_r|].
    cbn [includes] in H1. apply orb_false_iff in H1. destruct H1 as [H1 _].
    rewrite H1. apply andb_false_r. }
  rewrite F1, F2, H0, IH by exact H1. reflexivity.
Qed.

(** X1.  A response without a code fence reaches [JSON.parse] as it is,
    up to the white space at its ends; and cleaning never makes a text
    longer. *)
Theorem cleanJson_plain (text : jsstring) :
  (includes text (str "```") = false -> cleanJson text = trim text)
  /\ (length (cleanJson text) <= length text)%nat.
Proof.
  unfold cleanJson, stripFences. split.
  - intros H. rewrite stripFrom_plain by exact H. reflexivity.
  - pose proof (length_trim (stripFrom 0 text)).
    pose proof (length_stripFrom 0 text). lia.
Qed.

Lemma startsWith_head (c a : N) (s p : jsstring) :
  N.eqb c a = false -> startsWith (c :: s) (a :: p) = false.
Proof. intros H. simpl. rewrite H. reflexivity. Qed.

Lemma stripFrom_closing (body : jsstring) :
  ~ In 96%N body ->
  exists r,
    stripFrom 0 (body ++ str "```") = r
    /\ (body = r \/ body = r ++ [10%N]).
Proof.
  induction body as [|c b IH]; intros Hno.
  - exists []. split; [reflexivity | left; reflexivity].
  - assert (Hc : N.eqb c 96 = false).
    { apply N.eqb_neq. intros ->. apply Hno. left; reflexivity. }
    assert (Hb : ~ In 96%N b) by (intros H; apply Hno; right; exact H).
    change ((c :: b) ++ str "```") with (c :: (b ++ str "```")).
    cbn [stripFrom].
    rewrite (@startsWith_head c 96 (b ++ str "```") (str "``json") Hc
             : startsWith _ (str "```json") = false).
    rewrite (@startsWith_head c 96 (b ++ str "```") (str "``") Hc
             : startsWith _ (str "```") = false).
    change (startsWith (c :: b ++ str "```") (10%N :: str "```"))
      with (N.eqb c 10 && startsWith (b ++ str "```") (str "```")).
    destruct b as [|d b].
    + destruct (N.eqb_spec c 10) as [->|Hne].
      * exists []. split; [reflexivity | right; reflexivity].
      * exists [c]. split; [reflexivity | left; reflexivity].
    + assert (Hd : N.eqb d 96 = false).
      { apply N.eqb_neq. intros ->. apply Hb. left; reflexivity. }
      rewrite (@startsWith_head d 96 (b ++ str "```") (str "``") Hd
               : startsWith ((d :: b) ++ str "```") (str "```") = false).
      rewrite andb_false_r.
      destruct (IH Hb) as [r [E Hr]]. exists (c :: r). rewrite E.
      split; [reflexivity|]. destruct Hr as [->| ->]; auto.
Qed.

Lemma stripFrom_closing_trim (body : jsstring) :
  ~ In 96%N body -> trim (stripFrom 0 (body ++ str "```")) = trim body.
Proof.
  intros Hno. destruct (@stripFrom_closing body Hno) as [r [E [->| ->]]];
    rewrite E; [reflexivity|].
  symmetry. apply trim_snoc. reflexivity.
Qed.

Lemma startsWith_before (b t q : jsstring) :
  ~ In 96%N q -> startsWith (b ++ 96%N :: t) q = true ->
  startsWith b q = true.
Proof.
  revert b; induction q as [|a q IH]; intros b Hq; [reflexivity|].
  destruct b as [|c b]; cbn [startsWith app].
  - rewrite andb_true_iff, N.eqb_eq. intros [E _]. exfalso.
    apply Hq. left. symmetry. exact E.
  - rewrite !andb_true_iff. intros [E H]. split; [exact E|].
    apply IH; [|exact H]. intros Hin. apply Hq. right. exact Hin.
Qed.

Lemma stripFrom_bare_fence (rest : jsstring) :
  startsWith rest (str "json") = false ->
  stripFrom 0 (96%N :: 96%N :: 96%N :: rest) = stripFrom 0 rest.
Proof.
  intros H. cbn [stripFrom].
  replace (startsWith (96%N :: 96%N :: 96%N :: rest) (str "```json"))
    with (startsWith rest (str "json")) by reflexivity.
  rewrite H.
  replace (startsWith (96%N :: 96%N :: 96%N :: rest) (10%N :: str "```"))
    with false by reflexivity.
  replace (startsWith (96%N :: 96%N :: 96%N :: rest) (str "```"))
    with true by reflexivity.
  reflexivity.
Qed.

(** X2.  A response wrapped in a code fence reaches [JSON.parse] as the
    text between the fences, up to the white space at its ends: with the
    opening fence [```json], and with a bare opening fence when the text
    does not itself begin with [json].  The text between the fences is
    taken without backticks. *)
Theorem cleanJson_fenced (body : jsstring) :
  ~ In 96%N body ->
  cleanJson (str "```json" ++ body ++ str "```") = trim body
  /\ (startsWith body (str "json") = false ->
      cleanJson (str "```" ++ body ++ str "```") = trim body).
Proof.
  intros Hno. unfold cleanJson, stripFences. split.
  - destruct body as [|c b].
    + reflexivity.
    + destruct (N.eqb_spec c 10) as [->|Hne].
      * change (stripFrom 0 (str "```json" ++ (10%N :: b) ++ str "```"))
          with (stripFrom 0 (b ++ str "```")).
        rewrite stripFrom_closing_trim, trim_cons; trivial.
        intros H. apply Hno. right. exact H.
      * replace (stripFrom 0 (str "```json" ++ (c :: b) ++ str "```"))
          with (stripFrom 0 ((c :: b) ++ str "```")).
        { apply stripFrom_closing_trim, Hno. }
        cbn. destruct (N.eqb_spec c 10); [contradiction | reflexivity].
  - intros Hj.
    assert (F : startsWith (body ++ str "```") (str "json") = false).
    { destruct (startsWith (body ++ str "```") (str "json")) eqn:E;
        [|reflexivity].
      apply startsWith_before in E; [congruence|].
      cbn. intros [H|[H|[H|[H|[]]]]]; discriminate H. }
    change (str "```" ++ body ++ str "```")
      with (96%N :: 96%N :: 96%N :: (body ++ str "```")).
    rewrite (stripFrom_bare_fence _ F).
    apply stripFrom_closing_trim, Hno.
Qed.

(** ** The request handler *)

Lemma Map_get_set_eq (m : RateMap) (key : jsstring) (v : Rate) :
  Map_get (Map_set m key v) key = Some v.
Proof.
  induction m as [|[k x] m IH]; simpl.
  - rewrite eqb_refl. reflexivity.
  - destruct (eqb k key) eqn:E; simpl; rewrite E; [reflexivity | exact IH].
Qed.

Lemma Map_get_set_ne (m : RateMap) (key other : jsstring) (v : Rate) :
  key <> other -> Map_get (Map_set m key v) other = Map_get m other.
Proof.
  intros Hne. induction m as [|[k x] m IH]; simpl.
  - apply eqb_neq in Hne. rewrite Hne. reflexivity.
  - destruct (eqb k key) eqn:E; simpl.
    + apply eqb_eq in E. subst k. apply eqb_neq in Hne. rewrite Hne.
      reflexivity.
    + destruct (eqb k other); [reflexivity | exact IH].
Qed.

(** X3.  The handler answers 200 exactly when the request passes the rate
    limiter and its body parses to a value whose [message] field is a
    string that is not white space throughout and has at most 10000 code
    units; the body of the answer is then the verdict of [analyzeMessage]
    for that string, and [analyzeMessage] is run on no other input. *)
Theorem POST_ok_iff (ipRequestCounts : RateMap) (request : Request) :
  let response := fst (POST ipRequestCounts request) in
  (status response = 200%Z <->
   admitted ipRequestCounts request = true
   /\ exists message,
        messageField request = Some message /\ acceptable message = true)
  /\ (forall result,
        payload response = Verdict result ->
        status response = 200%Z
        /\ exists message,
             messageField request = Some message
             /\ acceptable message = true
             /\ result = analyzeMessage (credential request)
                                         (reply request) message).
Proof.
  unfold POST, admitted, messageField, acceptable. cbn [fst]. cbv zeta.
  set (rate := rateStep ipRequestCounts (clientOf (forwardedFor request))
                 (now request)).
  rewrite Z.ltb_antisym.
  destruct (count rate <=? MAX_REQUESTS_PER_WINDOW)%Z; cbn [negb].
  2:{ split; [|discriminate]. split; [discriminate|].
      intros [H _]; discriminate. }
  destruct (json request) as [body|].
  2:{ split; [|discriminate]. split; [discriminate|].
      intros [_ [m [H _]]]; discriminate. }
  destruct (get body (str "message")) as [[field|]|].
  2,3: (split; [|discriminate]; split; [discriminate|];
        intros [_ [m [H _]]]; discriminate).
  destruct field as [|b|n|message|items|props];
    try (split; [|discriminate]; split; [discriminate|];
         intros [_ [m [H _]]]; discriminate).
  destruct message as [|c rest].
  { split; [|discriminate]. split; [discriminate|].
    intros [_ [m [H A]]]. injection H as <-. discriminate. }
  set (message := c :: rest).
  destruct (length (trim message) =? 0)%nat eqn:T.
  { apply Nat.eqb_eq, trim_empty_iff in T.
    split; [|discriminate]. split; [discriminate|].
    intros [_ [m [H A]]]. injection H as <-. rewrite T in A.
    discriminate. }
  assert (W : forallb isWhiteSpace message = false).
  { destruct (forallb isWhiteSpace message) eqn:A; [|reflexivity].
    apply trim_empty_iff, Nat.eqb_eq in A. congruence. }
  rewrite Z.ltb_antisym.
  destruct (Z.of_nat (length message) <=? 10000)%Z eqn:L; cbn [negb].
  - split.
    + split; [|reflexivity]. intros _. split; [reflexivity|].
      exists message. rewrite W, L. split; reflexivity.
    + intros result H. cbn [payload] in H. injection H as <-.
      split; [reflexivity|]. exists message. rewrite W, L.
      repeat split.
  - split; [|discriminate]. split; [discriminate|].
    intros [_ [m [H A]]]. injection H as <-. rewrite L, andb_false_r in A.
    discriminate.
Qed.


Lemma POST_limited (ipRequestCounts : RateMap) (request : Request) :
  status (fst (POST ipRequestCounts request)) = 429%Z <->
  (MAX_REQUESTS_PER_WINDOW
   < count (rateStep ipRequestCounts (clientOf (forwardedFor request))
              (now request)))%Z.
Proof.
  unfold POST. cbn [fst]. cbv zeta.
  set (rate := rateStep ipRequestCounts (clientOf (forwardedFor request))
                 (now request)).
  destruct (Z.ltb_spec MAX_REQUESTS_PER_WINDOW (count rate)) as [L|L].
  - split; [intros _; exact L | reflexivity].
  - split; [|lia]. intros H. exfalso.
    destruct (json request) as [body|]; [|discriminate H].
    destruct (get body (str "message")) as [[field|]|];
      try discriminate H.
    destruct field as [|b|n|[|c rest]|items|props]; try discriminate H.
    destruct (length (trim (c :: rest)) =? 0)%nat;
      [|destruct (10000 <? Z.of_nat (length (c :: rest)))%Z];
      discriminate H.
Qed.

Lemma POST_entry (ipRequestCounts : RateMap) (request : Request) :
  let ip := clientOf (forwardedFor request) in
  let store := snd (POST ipRequestCounts request) in
  Map_get store ip = Some (rateStep ipRequestCounts ip (now request))
  /\ forall other,
       other <> ip -> Map_get store other = Map_get ipRequestCounts other.
Proof.
  unfold POST. cbn [snd]. cbv zeta. split.
  - apply Map_get_set_eq.
  - intros other Hne. apply Map_get_set_ne. congruence.
Qed.

(** X5.  Every request is counted, whatever the answer is: after the
    call the entry of the client is the counted one, and the entry of
    every other client is as before. *)
Theorem POST_store (ipRequestCounts : RateMap) (request : Request)
  (other : jsstring) :
  let ip := clientOf (forwardedFor request) in
  let store := snd (POST ipRequestCounts request) in
  Map_get store ip = Some (rateStep ipRequestCounts ip (now request))
  /\ (other <> ip -> Map_get store other = Map_get ipRequestCounts other).
Proof.
  intros ip store.
  destruct (POST_entry ipRequestCounts request) as [Hown Hother].
  split; [exact Hown | apply Hother].
Qed.

(** The responses to requests of one client that all arrive before the
    window of its entry ends. *)
Lemma serve_within_window (ip : jsstring) (requests : list Request) :
  forall (ipRequestCounts : RateMap) (c r : Z),
    Map_get ipRequestCounts ip = Some {| count := c; resetTime := r |} ->
    (forall q, In q requests ->
               clientOf (forwardedFor q) = ip /\ (now q <= r)%Z) ->
    Map_get (snd (serve ipRequestCounts requests)) ip
      = Some {| count := c + Z.of_nat (length requests); resetTime := r |}
    /\ forall i response,
         nth_error (fst (serve ipRequestCounts requests)) i = Some response ->
         (status response = 429%Z <-> (10 < c + Z.of_nat i + 1)%Z).
Proof.
  induction requests as [|q rest IH]; intros store c r Hget Hall.
  - cbn [serve fst snd length]. rewrite Z.add_0_r. split; [exact Hget|].
    intros [|i] response H; discriminate H.
  - destruct (Hall q (or_introl eq_refl)) as [Hip Hnow].
    assert (Hstep : rateStep store ip (now q)
                    = {| count := c + 1; resetTime := r |}).
    { unfold rateStep. rewrite Hget. cbn [resetTime count].
      destruct (Z.ltb_spec r (now q)); [lia | reflexivity]. }
    pose proof (POST_limited store q) as Hlim.
    pose proof (POST_entry store q) as [Hnew _].
    cbv zeta in Hnew. rewrite Hip, Hstep in Hnew, Hlim.
    cbn [count] in Hlim.
    cbn [serve]. destruct (POST store q) as [response store'].
    cbn [fst snd] in Hnew, Hlim.
    specialize (IH store' (c + 1)%Z r Hnew
                  (fun q' H => Hall q' (or_intror H))).
    destruct (serve store' rest) as [responses final].
    cbn [fst snd] in IH |- *. destruct IH as [Hfinal Hresp]. split.
    + rewrite Hfinal. f_equal. f_equal. cbn [length]. lia.
    + intros [|i] resp H; cbn [nth_error] in H.
      * injection H as <-. rewrite Hlim.
        unfold MAX_REQUESTS_PER_WINDOW. cbn [Z.of_nat]. lia.
      * rewrite (Hresp i resp H). lia.
Qed.

(** X6.  A client without an entry sends a burst of requests, each no
    later than 60000 ms after the first: the first ten get past the rate
    limiter and all the later ones are answered 429, whatever the
    requests hold. *)
Theorem serve_burst (ipRequestCounts : RateMap) (first : Request)
  (rest : list Request) (i : nat) (response : Response) :
  let ip := clientOf (forwardedFor first) in
  Map_get ipRequestCounts ip = None ->
  (forall q, In q rest ->
             clientOf (forwardedFor q) = ip
             /\ (now q <= now first + 60000)%Z) ->
  nth_error (fst (serve ipRequestCounts (first :: rest))) i = Some response ->
  (status response = 429%Z <-> (10 <= i)%nat).
Proof.
  intros ip Hnone Hall H.
  assert (Hstep : rateStep ipRequestCounts ip (now first)
                  = {| count := 1; resetTime := now first + 60000 |}).
  { unfold rateStep. rewrite Hnone. cbn [resetTime count].
    unfold RATE_LIMIT_WINDOW.
    destruct (Z.ltb_spec (now first + 60 * 1000) (now first));
      [lia | reflexivity]. }
  pose proof (POST_limited ipRequestCounts first) as Hlim.
  pose proof (POST_entry ipRequestCounts first) as [Hnew _].
  cbv zeta in Hnew. fold ip in Hnew, Hlim. rewrite Hstep in Hnew, Hlim.
  cbn [count] in Hlim. unfold MAX_REQUESTS_PER_WINDOW in Hlim.
  cbn [serve] in H. destruct (POST ipRequestCounts first) as [r0 store'].
  cbn [fst snd] in Hnew, Hlim.
  pose proof (@serve_within_window ip rest store' 1%Z
                (now first + 60000)%Z Hnew Hall) as [_ Hresp].
  destruct (serve store' rest) as [responses final].
  cbn [fst] in H, Hresp. destruct i as [|i]; cbn [nth_error] in H.
  - injection H as <-. rewrite Hlim. lia.
  - rewrite (Hresp i response H). lia.
Qed.

(** X7.  Once the window of a client has ended (the clock is past its
    [resetTime]) the next request opens a new window: it gets past the
    rate limiter however many requests were counted before, and the
    entry becomes one request in a window of 60000 ms from now.  A
    request at the very millisecond of [resetTime] still falls in the old
    window. *)
Theorem POST_window (ipRequestCounts : RateMap) (request : Request)
  (rate : Rate) :
  let ip := clientOf (forwardedFor request) in
  Map_get ipRequestCounts ip = Some rate ->
  ((resetTime rate < now request)%Z ->
   status (fst (POST ipRequestCounts request)) <> 429%Z
   /\ Map_get (snd (POST ipRequestCounts request)) ip
      = Some {| count := 1; resetTime := now request + 60000 |})
  /\ ((now request <= resetTime rate)%Z ->
      Map_get (snd (POST ipRequestCounts request)) ip
      = Some {| count := count rate + 1; resetTime := resetTime rate |}
      /\ (status (fst (POST ipRequestCounts request)) = 429%Z
          <-> (10 <= count rate)%Z)).
Proof.
  intros ip Hget.
  pose proof (POST_limited ipRequestCounts request) as Hlim.
  pose proof (POST_entry ipRequestCounts request) as [Hnew _].
  cbv zeta in Hnew. fold ip in Hnew, Hlim.
  unfold MAX_REQUESTS_PER_WINDOW in Hlim.
  split; intros Hnow.
  - assert (Hstep : rateStep ipRequestCounts ip (now request)
                    = {| count := 1; resetTime := now request + 60000 |}).
    { unfold rateStep. rewrite Hget.
      destruct (Z.ltb_spec (resetTime rate) (now request));
        [reflexivity | lia]. }
    rewrite Hstep in Hnew, Hlim. cbn [count] in Hlim.
    split; [rewrite Hlim; lia | exact Hnew].
  - assert (Hstep : rateStep ipRequestCounts ip (now request)
                    = {| count := count rate + 1;
                         resetTime := resetTime rate |}).
    { unfold rateStep. rewrite Hget.
      destruct (Z.ltb_spec (resetTime rate) (now request));
        [lia | reflexivity]. }
    rewrite Hstep in Hnew, Hlim. cbn [count] in Hlim.
    split; [exact Hnew | rewrite Hlim; lia].
Qed.

(** ** The patterns and the score of the heuristic verdict *)

Lemma subseq_In (l k : list jsstring) (x : jsstring) :
  subseq l k = true -> In x l -> In x k.
Proof.
  revert l; induction k as [|y k IH]; intros [|z l]; simpl; try tauto;
    try discriminate.
  destruct (eqb z y) eqn:E.
  - apply eqb_eq in E. subst z. intros H [<-|Hin]; [left; reflexivity|].
    right. exact (IH l H Hin).
  - intros H Hin. right. exact (IH (z :: l) H Hin).
Qed.

Lemma subseq_NoDup (l k : list jsstring) :
  subseq l k = true -> NoDup k -> NoDup l.
Proof.
  revert l; induction k as [|y k IH]; intros [|z l] S N;
    try constructor; try discriminate S.
  - cbn [subseq] in S. inversion N as [|? ? Hy Nk]; subst.
    destruct (eqb z y) eqn:E.
    + apply eqb_eq in E. subst z. intros Hin. apply Hy.
      eapply subseq_In; eassumption.
    + assert (D : NoDup (z :: l)) by (apply IH; assumption).
      inversion D; assumption.
  - cbn [subseq] in S. inversion N as [|? ? Hy Nk]; subst.
    destruct (eqb z y) eqn:E.
    + apply IH; assumption.
    + assert (D : NoDup (z :: l)) by (apply IH; assumption).
      inversion D; assumption.
Qed.

Lemma knownDescriptions_NoDup : NoDup knownDescriptions.
Proof.
  apply (@subseq_NoDup knownDescriptions
           (Array_from_Set knownDescriptions)).
  - vm_compute. reflexivity.
  - apply Array_from_Set_NoDup.
Qed.

(** The detected patterns come in the order of [knownDescriptions], and
    never hold both link descriptions. *)
Lemma detected_subseq (message : jsstring) :
  let detected := detectedPatterns (afterPersonalInfo message) in
  subseq detected knownDescriptions = true
  /\ (length detected <= 8)%nat
  /\ existsb (eqb shortenedDescription) detected
     && existsb (eqb linksDescription) detected = false.
Proof.
  unfold afterPersonalInfo, checkPersonalInfo, afterLinks, checkLinks,
    afterFormatting, checkFormatting, afterCategories.
  rewrite fold_checkPattern. cbv zeta.
  unfold SCAM_PATTERNS.
  cbn [map snd filter detectedPatterns initial app].
  generalize (hasPersonalInfoRequest (toLowerCase message)).
  generalize (hasShortenedLinks message).
  generalize (hasLinks message).
  generalize (hasMultipleExclamations message || hasAllCaps message
              || hasPoorSpacing message).
  generalize (0 <? length (matchedKeywords (toLowerCase message)
                             urgentLanguage))%nat.
  generalize (0 <? length (matchedKeywords (toLowerCase message)
                             paymentRequest))%nat.
  generalize (0 <? length (matchedKeywords (toLowerCase message)
                             impersonation))%nat.
  generalize (0 <? length (matchedKeywords (toLowerCase message)
                             prizes))%nat.
  generalize (0 <? length (matchedKeywords (toLowerCase message)
                             threats))%nat.
  intros [|] [|] [|] [|] [|] [|] [|] [|] [|];
    cbn [map detectedPatterns flag app length Nat.ltb Nat.leb andb];
    (split; [vm_compute; reflexivity | split; [lia|]]);
    vm_compute; reflexivity.
Qed.

(** X8.  The patterns of a heuristic verdict are pairwise distinct and
    between 1 and 8; they are the sentinel alone, or descriptions in the
    fixed order: the categories in catalog order, then formatting, then
    one of the two link descriptions, then sensitive information. *)
Theorem heuristic_patterns_shape (message : jsstring) :
  let v := analyzeHeuristically message in
  NoDup (patterns v)
  /\ (1 <= length (patterns v) <= 8)%nat
  /\ (patterns v = [noPatterns]
      \/ subseq (patterns v) knownDescriptions = true)
  /\ ~ (In shortenedDescription (patterns v)
        /\ In linksDescription (patterns v)).
Proof.
  destruct (detected_subseq message) as [S [L B]]. cbv zeta in S, L, B.
  unfold analyzeHeuristically. cbn [patterns]. cbv zeta.
  destruct (detectedPatterns (afterPersonalInfo message)) as [|d ds] eqn:E.
  - cbn [length Nat.ltb Nat.leb].
    split; [|split; [simpl; lia | split; [left; reflexivity|]]].
    + constructor; [intros [] | constructor].
    + intros [[H|[]] _]. vm_compute in H. discriminate H.
  - cbn [length Nat.ltb Nat.leb].
    split; [|split; [|split; [right; exact S|]]].
    + apply (subseq_NoDup _ S), knownDescriptions_NoDup.
    + cbn [length] in L |- *. lia.
    + intros [H1 H2].
      apply (proj2 (existsb_eqb_In _ _)) in H1.
      apply (proj2 (existsb_eqb_In _ _)) in H2.
      rewrite H1, H2 in B. discriminate B.
Qed.

(** Every push comes with at least 10 points, and all additions are
    multiples of 5. *)
Lemma score_steps (message : jsstring) :
  let st := afterPersonalInfo message in
  (exists k, score st = 5 * k)%Z
  /\ (10 * Z.of_nat (length (detectedPatterns st)) <= score st)%Z.
Proof.
  assert (P : forall d n st,
            (exists j, n = 5 * j)%Z -> (10 <= n)%Z ->
            ((exists k, score st = 5 * k)%Z
             /\ (10 * Z.of_nat (length (detectedPatterns st)) <= score st)%Z) ->
            (exists k, score (flag d n st) = 5 * k)%Z
            /\ (10 * Z.of_nat (length (detectedPatterns (flag d n st)))
                <= score (flag d n st))%Z).
  { intros d n st [j ->] Hn [[k Hk] Hl]. cbn [flag score detectedPatterns].
    rewrite length_app. cbn [length]. split; [exists (k + j)%Z; lia | lia]. }
  assert (C : (exists k, score (afterCategories message) = 5 * k)%Z
              /\ (10 * Z.of_nat (length (detectedPatterns
                                           (afterCategories message)))
                  <= score (afterCategories message))%Z).
  { unfold afterCategories. generalize (toLowerCase message). intros lower.
    assert (I : (exists k, score initial = 5 * k)%Z
                /\ (10 * Z.of_nat (length (detectedPatterns initial))
                    <= score initial)%Z)
      by (split; [exists 0%Z; reflexivity | simpl; lia]).
    revert I. generalize initial.
    induction SCAM_PATTERNS as [|entry entries IH]; intros st I;
      [exact I|].
    cbn [fold_left]. apply IH. unfold checkPattern. cbv zeta.
    destruct (0 <? length (matchedKeywords lower (snd entry)))%nat eqn:E;
      [|exact I].
    apply Nat.ltb_lt in E. destruct I as [[k Hk] Hl].
    cbn [score detectedPatterns]. rewrite length_app. cbn [length].
    split; [|lia].
    exists (k + 3 + Z.of_nat (length (matchedKeywords lower (snd entry))))%Z.
    lia. }
  unfold afterPersonalInfo, checkPersonalInfo, afterLinks, checkLinks,
    afterFormatting, checkFormatting. cbv zeta.
  assert (F : (exists k, score (if hasMultipleExclamations message
                                    || hasAllCaps message
                                    || hasPoorSpacing message
                                 then flag formattingDescription 10
                                        (afterCategories message)
                                 else afterCategories message) = 5 * k)%Z
              /\ (10 * Z.of_nat (length (detectedPatterns
                    (if hasMultipleExclamations message
                        || hasAllCaps message || hasPoorSpacing message
                     then flag formattingDescription 10
                            (afterCategories message)
                     else afterCategories message)))
                  <= score (if hasMultipleExclamations message
                               || hasAllCaps message
                               || hasPoorSpacing message
                            then flag formattingDescription 10
                                   (afterCategories message)
                            else afterCategories message))%Z).
  { destruct (_ || _ || _); [|exact C].
    apply P; [exists 2%Z; reflexivity | lia | exact C]. }
  revert F. generalize (if hasMultipleExclamations message
                           || hasAllCaps message || hasPoorSpacing message
                        then flag formattingDescription 10
                               (afterCategories message)
                        else afterCategories message).
  intros st F.
  assert (L : (exists k, score (checkLinks message st) = 5 * k)%Z
              /\ (10 * Z.of_nat (length (detectedPatterns
                                           (checkLinks message st)))
                  <= score (checkLinks message st))%Z).
  { unfold checkLinks. destruct (hasShortenedLinks message);
      [apply P; [exists 4%Z; reflexivity | lia | exact F]|].
    destruct (hasLinks message && _); [|exact F].
    apply P; [exists 2%Z; reflexivity | lia | exact F]. }
  fold (checkLinks message st).
  destruct (hasPersonalInfoRequest (toLowerCase message)); [|exact L].
  apply P; [exists 5%Z; reflexivity | lia | exact L].
Qed.

(** X9.  The score of a heuristic verdict is a multiple of 5, and unless
    it is 0 it is at least 10 for each pattern of the verdict; so a
    verdict of level low has at most three patterns. *)
Theorem heuristic_score_grain (message : jsstring) :
  let v := analyzeHeuristically message in
  (exists k, riskScore v = 5 * k)%Z
  /\ (riskScore v = 0%Z
      \/ (10 * Z.of_nat (length (patterns v)) <= riskScore v)%Z)
  /\ (riskLevel v = low -> (length (patterns v) <= 3)%nat).
Proof.
  destruct (score_steps message) as [[k Hk] Hl]. cbv zeta in Hk, Hl.
  destruct (detected_subseq message) as [_ [L8 _]]. cbv zeta in L8.
  unfold analyzeHeuristically. cbn [riskScore riskLevel patterns]. cbv zeta.
  rewrite finalScore_capped. unfold cappedScore.
  destruct (detectedPatterns (afterPersonalInfo message)) as [|d ds] eqn:E.
  - cbn [length] in Hl. cbn [length Nat.ltb Nat.leb].
    split; [|split; [|intros _; simpl; lia]].
    + destruct (Z.min_spec 100 (score (afterPersonalInfo message)))
        as [[_ ->]|[_ ->]]; [exists 20%Z; reflexivity | exists k; exact Hk].
    + destruct (afterPersonalInfo_consistent message) as [[_ Hs]|[Hp _]];
        [left; rewrite Hs; reflexivity | congruence].
  - cbn [length Nat.ltb Nat.leb].
    split; [|split].
    + destruct (Z.min_spec 100 (score (afterPersonalInfo message)))
        as [[_ ->]|[_ ->]]; [exists 20%Z; reflexivity | exists k; exact Hk].
    + right. cbn [length] in Hl, L8 |- *. lia.
    + rewrite levelOf_low. cbn [length] in Hl, L8 |- *. lia.
Qed.

(** What is in the locals at the end is in the verdict: a pattern, and a
    score up to the cap. *)
Lemma heuristic_floor (message : jsstring) :
  (forall d,
      In d (detectedPatterns (afterPersonalInfo message)) ->
      In d (patterns (analyzeHeuristically message)))
  /\ (forall b,
        (b <= 100)%Z -> (b <= score (afterPersonalInfo message))%Z ->
        (b <= riskScore (analyzeHeuristically message))%Z)
  /\ (detectedPatterns (afterPersonalInfo message) <> [] ->
      patterns (analyzeHeuristically message)
      = detectedPatterns (afterPersonalInfo message)).
Proof.
  unfold analyzeHeuristically. cbn [patterns riskScore]. cbv zeta.
  rewrite finalScore_capped. unfold cappedScore.
  split; [|split].
  - intros d H.
    destruct (detectedPatterns (afterPersonalInfo message));
      [destruct H | exact H].
  - intros b H1 H2. lia.
  - intros H. destruct (detectedPatterns (afterPersonalInfo message));
      [congruence | reflexivity].
Qed.

(** X10.  Every phrase of a heuristic verdict is a keyword of the catalog
    whose lowercase form occurs in the lowercased message; the
    sensitive-information keywords are not reported as phrases unless the
    catalog has them too. *)
Theorem suspiciousPhrases_sound (message : jsstring) (phrase : jsstring) :
  In phrase (suspiciousPhrases (analyzeHeuristically message)) ->
  In phrase allKeywords
  /\ includes (toLowerCase message) (toLowerCase phrase) = true.
Proof.
  unfold analyzeHeuristically. cbn [suspiciousPhrases]. cbv zeta.
  intros H. apply In_firstn in H.
  apply (proj1 (Array_from_Set_In _ _)) in H.
  rewrite phrases_afterPersonalInfo in H. unfold afterCategories in H.
  rewrite fold_checkPattern in H. cbn [phrases initial app] in H.
  fold catalog in H. apply in_flat_map in H. destruct H as [p [Hp H]].
  apply In_firstn in H. unfold matchedKeywords in H.
  apply filter_In in H. destruct H as [Hk Hinc].
  split; [eapply In_allKeywords; eassumption | exact Hinc].
Qed.

(** X11.  The explanation of a heuristic verdict follows from its score,
    its level and its patterns.  Score 0 gives the fixed reassurance; any
    other score of level low gives one fixed sentence (the wording for a
    low verdict without patterns is never used); level medium names the
    first pattern of the verdict in lowercase, level high the first two
    joined by [and]. *)
Theorem heuristic_explanation (message : jsstring) :
  let v := analyzeHeuristically message in
  (riskScore v = 0%Z ->
   explanation v =
   str "This message appears to be legitimate with no obvious scam indicators detected. However, always exercise caution when sharing personal information or clicking on links.")
  /\ (riskScore v <> 0%Z -> riskLevel v = low ->
      explanation v =
      str "This message shows minimal risk indicators. While some patterns were detected, they may be used in legitimate contexts. Always verify the sender's identity before taking action.")
  /\ (riskLevel v = medium ->
      exists first rest,
        patterns v = first :: rest
        /\ explanation v =
           str "This message contains several concerning elements that are commonly found in scam attempts. The use of "
           ++ match toLowerCase first with
              | [] => str "suspicious language"
              | lowered => lowered
              end
           ++ str " and other patterns suggest caution is warranted. Verify the sender through official channels before responding or clicking any links.")
  /\ (riskLevel v = high ->
      explanation v =
      [9888%N; 65039%N]
      ++ str " This message exhibits multiple high-risk characteristics typical of scam attempts. The combination of "
      ++ join (str " and ") (map toLowerCase (firstn 2 (patterns v)))
      ++ str " are major red flags. Do not click any links, provide personal information, or send money. Contact the organization directly using official contact information to verify.").
Proof.
  unfold analyzeHeuristically.
  cbn [riskScore riskLevel explanation patterns]. cbv zeta.
  rewrite finalScore_capped. unfold cappedScore.
  set (detected := detectedPatterns (afterPersonalInfo message)).
  set (sc := Z.min 100 (score (afterPersonalInfo message))).
  assert (N : sc <> 0%Z -> exists d ds, detected = d :: ds).
  { subst sc detected.
    destruct (afterPersonalInfo_consistent message) as [[_ Hs]|[Hp _]].
    - rewrite Hs. intros H. exfalso. apply H. reflexivity.
    - intros _. destruct (detectedPatterns (afterPersonalInfo message))
        as [|d ds]; [congruence | eauto]. }
  assert (Z0 : levelOf sc = medium \/ levelOf sc = high -> sc <> 0%Z).
  { unfold levelOf. intros H ->. simpl in H. destruct H; discriminate. }
  clearbody sc detected. unfold explain.
  split; [|split; [|split]].
  - intros ->. reflexivity.
  - intros Hs Hl. apply Z.eqb_neq in Hs. rewrite Hs, Hl.
    apply Z.eqb_neq in Hs. destruct (N Hs) as [d [ds ->]].
    vm_compute. reflexivity.
  - intros Hl. assert (Hs : sc <> 0%Z) by (apply Z0; left; exact Hl).
    destruct (N Hs) as [d [ds ->]]. apply Z.eqb_neq in Hs.
    rewrite Hs, Hl. exists d, ds. split; reflexivity.
  - intros Hl. assert (Hs : sc <> 0%Z) by (apply Z0; right; exact Hl).
    destruct (N Hs) as [d [ds ->]]. apply Z.eqb_neq in Hs.
    rewrite Hs, Hl. reflexivity.
Qed.

(** X12.  For a heuristic verdict the colour of the score and the colour
    of the level badge on the page agree except at the scores 30 and 70:
    there the level is still low, respectively medium, while the score is
    already drawn in the next colour.  The label of the badge is never
    [Unknown]. *)
Theorem display_colours (message : jsstring) :
  let v := analyzeHeuristically message in
  (startsWith (getRiskColor (levelName (riskLevel v)))
              (getRiskScoreColor (riskScore v)) = true
   <-> riskScore v <> 30%Z /\ riskScore v <> 70%Z)
  /\ getRiskLabel (levelName (riskLevel v)) <> str "Unknown".
Proof.
  unfold analyzeHeuristically. cbn [riskScore riskLevel]. cbv zeta.
  generalize (finalScore message). intros sc.
  unfold levelOf, getRiskScoreColor.
  destruct (Z.leb_spec sc 30) as [A|A];
    [|destruct (Z.leb_spec sc 70) as [B|B]];
    destruct (Z.ltb_spec sc 30) as [C|C]; try lia;
    try (destruct (Z.ltb_spec sc 70) as [D|D]; try lia);
    (split; [split; [intros H; try (vm_compute in H; discriminate H); lia
                    | intros H; try (vm_compute; reflexivity); lia]
            | vm_compute; discriminate]).
Qed.

(** ** Keywords inside keywords, and checks that always fire *)

Lemma includes_trans (s x y : jsstring) :
  includes s x = true -> includes x y = true -> includes s y = true.
Proof.
  rewrite !includes_spec.
  intros [a [b ->]] [c [d ->]]. exists (a ++ c), (d ++ b).
  rewrite <- !app_assoc. reflexivity.
Qed.

Lemma spec_hit_keyword (lower : jsstring) (p : Pattern)
  (keyword : jsstring) :
  In keyword (keywords p) -> includes lower keyword = true ->
  spec_hit lower p = true.
Proof.
  intros Hin Hinc. unfold spec_hit. apply existsb_exists.
  exists keyword. split; assumption.
Qed.

Lemma afterLinks_grows (message : jsstring) :
  grows (afterCategories message) (afterLinks message).
Proof.
  unfold afterLinks, afterFormatting.
  set (st0 := afterCategories message).
  apply grows_trans with (checkFormatting message st0).
  { unfold checkFormatting. destruct (_ || _ || _);
      [apply flag_grows; lia | apply grows_refl]. }
  unfold checkLinks. destruct (hasShortenedLinks message);
    [|destruct (hasLinks message && _)];
    try (apply flag_grows; lia); apply grows_refl.
Qed.

Lemma category_hit (message : jsstring) (p : Pattern) :
  keywordsLowercase -> In p catalog ->
  spec_hit (toLowerCase message) p = true ->
  In (description p) (detectedPatterns (afterCategories message)).
Proof.
  intros Hkw Hp Hhit.
  destruct (afterCategories_spec message Hkw) as [Hd _].
  rewrite Hd. apply in_map, filter_In. split; assumption.
Qed.

(** X13.  Some keywords hold another keyword, so one phrase counts twice.
    Provided [toLowerCase] leaves the catalog keywords as they are: a
    message with [suspended account] in its lowercased text is flagged
    for urgent language and for impersonation, scores at least 40 and is
    never of level low; one with [reset password] is flagged for
    impersonation and for sensitive information and scores at least
    45. *)
Theorem overlapping_keywords (message : jsstring) :
  keywordsLowercase ->
  let lower := toLowerCase message in
  let v := analyzeHeuristically message in
  (includes lower (str "suspended account") = true ->
   In (str "Urgent or time-pressured language") (patterns v)
   /\ In (str "Impersonation of official organizations") (patterns v)
   /\ (40 <= riskScore v)%Z /\ riskLevel v <> low)
  /\ (includes lower (str "reset password") = true ->
      In (str "Impersonation of official organizations") (patterns v)
      /\ In (str "Requests for sensitive personal information")
            (patterns v)
      /\ (45 <= riskScore v)%Z /\ riskLevel v <> low).
Proof.
  intros Hkw lower v.
  destruct (heuristic_floor message) as [Fin [Fsc _]].
  destruct (afterPersonalInfo_grows message) as [G1 G2].
  destruct (afterLinks_grows message) as [L1 L2].
  destruct (afterCategories_spec message Hkw) as [_ [_ Hs]].
  fold lower in Hs.
  assert (T : score (afterCategories message)
              = (spec_contribution lower urgentLanguage
                 + (spec_contribution lower paymentRequest
                    + (spec_contribution lower impersonation
                       + (spec_contribution lower prizes
                          + (spec_contribution lower threats + 0)))))%Z)
    by exact Hs.
  pose proof (spec_contribution_nonneg lower urgentLanguage).
  pose proof (spec_contribution_nonneg lower paymentRequest).
  pose proof (spec_contribution_nonneg lower impersonation).
  pose proof (spec_contribution_nonneg lower prizes).
  pose proof (spec_contribution_nonneg lower threats).
  assert (Low : forall b, (31 <= b)%Z -> (b <= riskScore v)%Z ->
                          riskLevel v <> low).
  { intros b Hb Hv Hl. apply (proj1 (levelOf_low _)) in Hl.
    change (riskScore v) with (finalScore message) in Hv. lia. }
  split; intros Hinc.
  - assert (Hu : spec_hit lower urgentLanguage = true).
    { apply spec_hit_keyword with (str "suspended");
        [vm_compute; tauto|].
      apply includes_trans with (str "suspended account");
        [exact Hinc | vm_compute; reflexivity]. }
    assert (Hi : spec_hit lower impersonation = true).
    { apply spec_hit_keyword with (str "suspended account");
        [vm_compute; tauto | exact Hinc]. }
    pose proof (spec_contribution_hit lower urgentLanguage Hu).
    pose proof (spec_contribution_hit lower impersonation Hi).
    assert (S40 : (40 <= riskScore v)%Z) by (apply Fsc; lia).
    split; [|split; [|split; [exact S40 | apply (Low 40%Z); [lia|exact S40]]]].
    + apply Fin, G2.
      apply (@category_hit message urgentLanguage Hkw);
        [left; reflexivity | exact Hu].
    + apply Fin, G2.
      apply (@category_hit message impersonation Hkw);
        [right; right; left; reflexivity | exact Hi].
  - assert (Hi : spec_hit lower impersonation = true).
    { apply spec_hit_keyword with (str "reset password");
        [vm_compute; tauto | exact Hinc]. }
    assert (Hp : hasPersonalInfoRequest lower = true).
    { unfold hasPersonalInfoRequest. apply existsb_exists.
      exists (str "password"). split; [vm_compute; tauto|].
      apply includes_trans with (str "reset password");
        [exact Hinc | vm_compute; reflexivity]. }
    pose proof (spec_contribution_hit lower impersonation Hi).
    assert (E : afterPersonalInfo message
                = flag personalInfoDescription 25 (afterLinks message)).
    { unfold afterPersonalInfo, checkPersonalInfo. fold lower.
      rewrite Hp. reflexivity. }
    assert (S45 : (45 <= riskScore v)%Z).
    { apply Fsc; [lia|]. rewrite E. cbn [flag score]. lia. }
    split; [|split; [|split; [exact S45 | apply (Low 45%Z); [lia|exact S45]]]].
    + apply Fin, G2.
      apply (@category_hit message impersonation Hkw);
        [right; right; left; reflexivity | exact Hi].
    + apply Fin. rewrite E. cbn [flag detectedPatterns].
      apply in_or_app. right. left. reflexivity.
Qed.

(** X14.  A message whose lowercased text holds one of the
    sensitive-information keywords, inside a longer word or not, gets
    [Requests for sensitive personal information] as the last pattern of
    its verdict and a score of at least 25. *)
Theorem sensitive_information_last (message keyword : jsstring) :
  In keyword personalInfoKeywords ->
  includes (toLowerCase message) keyword = true ->
  let v := analyzeHeuristically message in
  last (patterns v) noPatterns
    = str "Requests for sensitive personal information"
  /\ (25 <= riskScore v)%Z.
Proof.
  intros Hin Hinc v.
  destruct (heuristic_floor message) as [_ [Fsc Fpat]].
  assert (Hp : hasPersonalInfoRequest (toLowerCase message) = true).
  { unfold hasPersonalInfoRequest. apply existsb_exists.
    exists keyword. split; assumption. }
  assert (E : afterPersonalInfo message
              = flag personalInfoDescription 25 (afterLinks message)).
  { unfold afterPersonalInfo, checkPersonalInfo. rewrite Hp. reflexivity. }
  split.
  - subst v. rewrite Fpat.
    + rewrite E. cbn [flag detectedPatterns]. apply last_last.
    + rewrite E. cbn [flag detectedPatterns]. intros H.
      apply app_eq_nil in H. destruct H; discriminate.
  - apply Fsc; [lia|]. rewrite E. cbn [flag score].
    destruct (afterLinks_consistent message) as [[_ Hs]|[_ Hs]]; lia.
Qed.

Lemma test_caseBreak_intro (before rest : jsstring) (a b : N) :
  isAsciiLower a = true -> isAsciiUpper b = true ->
  test_caseBreak (before ++ a :: b :: rest) = true.
Proof.
  intros Ha Hb. induction before as [|c before IH].
  - cbn [app test_caseBreak]. rewrite Ha, Hb. reflexivity.
  - cbn [app]. destruct before as [|d before];
      cbn [app test_caseBreak] in *; rewrite IH; apply orb_true_r.
Qed.

Lemma test_threeSpaces_intro (before rest : jsstring) (a b c : N) :
  isWhiteSpace a = true -> isWhiteSpace b = true ->
  isWhiteSpace c = true ->
  test_threeSpaces (before ++ a :: b :: c :: rest) = true.
Proof.
  intros Ha Hb Hc. induction before as [|d before IH].
  - cbn [app test_threeSpaces]. rewrite Ha, Hb, Hc. reflexivity.
  - cbn [app]. destruct before as [|e [|f before]];
      cbn [app test_threeSpaces] in *; rewrite IH; apply orb_true_r.
Qed.

(** X15.  A message with three exclamation marks anywhere, or with a
    lowercase ASCII letter directly followed by an uppercase one (as in
    [PayPal]), or with three white-space characters in a row, gets
    [Poor grammar or unusual formatting] among its patterns and a score of
    at least 10. *)
Theorem formatting_triggers (message : jsstring) :
  (3 <= countChar 33 message)%nat
  \/ (exists before a b rest,
        message = before ++ a :: b :: rest
        /\ isAsciiLower a = true /\ isAsciiUpper b = true)
  \/ (exists before a b c rest,
        message = before ++ a :: b :: c :: rest
        /\ isWhiteSpace a = true /\ isWhiteSpace b = true
        /\ isWhiteSpace c = true) ->
  let v := analyzeHeuristically message in
  In (str "Poor grammar or unusual formatting") (patterns v)
  /\ (10 <= riskScore v)%Z.
Proof.
  intros H v.
  assert (F : formattingAnomaly message = true).
  { unfold formattingAnomaly, hasMultipleExclamations, hasPoorSpacing.
    destruct H as [H|[[before [a [b [rest [-> [Ha Hb]]]]]]
                     |[before [a [b [c [rest [-> [Ha [Hb Hc]]]]]]]]]].
    - apply Nat.ltb_lt in H. rewrite H. reflexivity.
    - rewrite (@test_caseBreak_intro before rest a b Ha Hb).
      rewrite !orb_true_r. reflexivity.
    - rewrite (@test_threeSpaces_intro before rest a b c Ha Hb Hc).
      rewrite orb_true_r. reflexivity. }
  destruct (heuristic_floor message) as [Fin [Fsc _]].
  assert (E : afterFormatting message
              = flag formattingDescription 10 (afterCategories message)).
  { unfold afterFormatting, checkFormatting.
    unfold formattingAnomaly in F. rewrite F. reflexivity. }
  assert (G : grows (afterFormatting message) (afterPersonalInfo message)).
  { unfold afterPersonalInfo, afterLinks.
    apply grows_trans with (checkLinks message (afterFormatting message)).
    - unfold checkLinks. destruct (hasShortenedLinks message);
        [|destruct (hasLinks message && _)];
        try (apply flag_grows; lia); apply grows_refl.
    - unfold checkPersonalInfo.
      destruct (hasPersonalInfoRequest (toLowerCase message));
        [apply flag_grows; lia | apply grows_refl]. }
  destruct G as [G1 G2]. rewrite E in G1, G2.
  cbn [flag score detectedPatterns] in G1, G2. split.
  - apply Fin, G2, in_or_app. right. left. reflexivity.
  - apply Fsc; [lia|].
    destruct (afterCategories_consistent message) as [[_ Hs]|[_ Hs]]; lia.
Qed.

(** ** The handler and the scorer together *)

Lemma POST_accepts (ipRequestCounts : RateMap) (request : Request)
  (message : jsstring) :
  admitted ipRequestCounts request = true ->
  messageField request = Some message ->
  acceptable message = true ->
  fst (POST ipRequestCounts request)
  = {| status := 200;
       payload := Verdict (analyzeMessage (credential request)
                             (reply request) message) |}.
Proof.
  unfold POST, admitted, messageField, acceptable. cbn [fst]. cbv zeta.
  intros A M C. rewrite Z.ltb_antisym, A. cbn [negb].
  destruct (json request) as [body|]; [|discriminate M].
  destruct (get body (str "message")) as [[field|]|]; try discriminate M.
  destruct field as [|b|n|text|items|props]; try discriminate M.
  injection M as ->. apply andb_true_iff in C. destruct C as [W L].
  destruct message as [|c rest]; [discriminate W|].
  apply negb_true_iff in W.
  replace (length (trim (c :: rest)) =? 0)%nat with false.
  - rewrite Z.ltb_antisym, L. reflexivity.
  - symmetry. apply Nat.eqb_neq. intros T.
    apply trim_empty_iff in T. congruence.
Qed.

(** X16.  When no credential is set, or the remote classifier fails or
    answers with text that does not parse, every request that passes the
    rate limiter with an acceptable message is answered 200 with the
    heuristic verdict of that message, whose score lies between 0 and
    100 and whose explanation is not empty. *)
Theorem POST_heuristic (ipRequestCounts : RateMap) (request : Request)
  (message : jsstring) :
  admitted ipRequestCounts request = true ->
  messageField request = Some message ->
  acceptable message = true ->
  credentialAbsent (credential request) = true
  \/ reply request = CallFails \/ reply request = ParseFails ->
  fst (POST ipRequestCounts request)
  = {| status := 200;
       payload := Verdict (Built (analyzeHeuristically message)) |}
  /\ recordInvariants (analyzeHeuristically message) = true.
Proof.
  intros A M C F. split; [|apply heuristic_recordInvariants].
  rewrite (POST_accepts ipRequestCounts request A M C).
  f_equal. f_equal. unfold analyzeMessage. cbv zeta.
  unfold credentialAbsent in F.
  destruct (credential request) as [[|c key]|]; try reflexivity.
  destruct F as [F|[F|F]]; [discriminate F | |]; rewrite F; reflexivity.
Qed.

End Analysis.

(** ** The model on concrete messages

    With [toLowerCase_latin1] and [toUpperCase_latin1] for the platform
    primitives; the messages below hold ASCII characters only. *)

Lemma latin1_keywordsLowercase : keywordsLowercase toLowerCase_latin1.
Proof. apply keywordsLowercaseb_sound. vm_compute. reflexivity. Qed.

(** A message with two keywords of [urgentLanguage] and two of
    [paymentRequest]: two descriptions, four phrases, 2 * (15 + 5 * 2). *)
Lemma category_scan_witness :
  keywordsLowercase toLowerCase_latin1
  /\ let message := str "URGENT: pay now with a gift card, act now" in
     let st := afterCategories toLowerCase_latin1 message in
     detectedPatterns st
       = [str "Urgent or time-pressured language";
          str "Requests for payment or financial information"]
     /\ phrases st = map str ["urgent"; "act now"; "gift card"; "pay now"]%string
     /\ score st = 50%Z.
Proof.
  assert (K : keywordsLowercase toLowerCase_latin1).
  { apply keywordsLowercaseb_sound. vm_compute. reflexivity. }
  split; [exact K|]. cbv zeta.
  destruct (@category_scan_spec toLowerCase_latin1
              (str "URGENT: pay now with a gift card, act now") K)
    as [_ [Hd [Hp [Hs _]]]].
  rewrite Hd, Hp, Hs. vm_compute. split; [|split]; reflexivity.
Defined.

(** No key; a failing call; a response that does not parse; a parsed
    object without a score; a parsed object without a tier. *)
Lemma analyzeMessage_falls_back_witness :
  let message := str "Your account is locked, verify account now" in
  let run := analyzeMessage toLowerCase_latin1 toUpperCase_latin1 in
  let heuristic :=
    Built (analyzeHeuristically toLowerCase_latin1 toUpperCase_latin1
             message) in
  let key := Some (str "key") in
  let fifty := JNumber (S754_finite false 7036874417766400 (-47)) in
  run None (Parsed JNull) message = heuristic
  /\ run key CallFails message = heuristic
  /\ run key ParseFails message = heuristic
  /\ run key (Parsed (JObject [(str "riskLevel", JString (str "high"))]))
         message = heuristic
  /\ run key (Parsed (JObject [(str "riskScore", fifty)])) message
     = heuristic.
Proof.
  cbv zeta. split; [|split; [|split; [|split]]];
    apply (proj2 (analyzeMessage_falls_back _ _ _ _ _)).
  - left. reflexivity.
  - right. left. reflexivity.
  - right. right. left. reflexivity.
  - right. right. right. eexists. split; [reflexivity|].
    left. reflexivity.
  - right. right. right. eexists. split; [reflexivity|].
    right. reflexivity.
Defined.

(** A shortened link; a link next to a keyword; a link on its own. *)
Lemma link_check_witness :
  let lower := toLowerCase_latin1 in
  let upper := toUpperCase_latin1 in
  (let message := str "see http://BIT.ly/x" in
   hasShortenedLinks message = true
   /\ detectedPatterns (afterLinks lower upper message)
        = [str "Shortened or suspicious URLs"]
   /\ score (afterLinks lower upper message) = 20%Z)
  /\ (let message := str "urgent: https://example.com" in
      hasShortenedLinks message = false /\ hasLinks message = true
      /\ detectedPatterns (afterFormatting lower upper message) <> []
      /\ detectedPatterns (afterLinks lower upper message)
           = [str "Urgent or time-pressured language";
              str "Contains links (verify before clicking)"]
      /\ score (afterLinks lower upper message) = 30%Z)
  /\ (let message := str "see www.example.com" in
      hasShortenedLinks message = false /\ hasLinks message = true
      /\ detectedPatterns (afterFormatting lower upper message) = []
      /\ afterLinks lower upper message = initial).
Proof.
  cbv zeta. split; [|split].
  - assert (S : hasShortenedLinks (str "see http://BIT.ly/x") = true)
      by (vm_compute; reflexivity).
    split; [exact S|].
    destruct (link_check_spec toLowerCase_latin1 toUpperCase_latin1
                (str "see http://BIT.ly/x")) as [H _].
    destruct (H S) as [Hd Hs]. rewrite Hd, Hs.
    vm_compute. split; reflexivity.
  - assert (S : hasShortenedLinks (str "urgent: https://example.com")
                = false) by (vm_compute; reflexivity).
    assert (L : hasLinks (str "urgent: https://example.com") = true)
      by (vm_compute; reflexivity).
    assert (D : detectedPatterns
                  (afterFormatting toLowerCase_latin1 toUpperCase_latin1
                     (str "urgent: https://example.com")) <> [])
      by (vm_compute; discriminate).
    split; [exact S|]. split; [exact L|]. split; [exact D|].
    destruct (link_check_spec toLowerCase_latin1 toUpperCase_latin1
                (str "urgent: https://example.com")) as [_ [H _]].
    destruct (H S L D) as [Hd Hs]. rewrite Hd, Hs.
    vm_compute. split; reflexivity.
  - assert (S : hasShortenedLinks (str "see www.example.com") = false)
      by (vm_compute; reflexivity).
    assert (D : detectedPatterns
                  (afterFormatting toLowerCase_latin1 toUpperCase_latin1
                     (str "see www.example.com")) = [])
      by (vm_compute; reflexivity).
    split; [exact S|]. split; [vm_compute; reflexivity|].
    split; [exact D|].
    destruct (link_check_spec toLowerCase_latin1 toUpperCase_latin1
                (str "see www.example.com")) as [_ [_ [H _]]].
    rewrite (H S (or_intror D)). vm_compute. reflexivity.
Defined.

(** The word in capitals, once, and nothing else that fires. *)
Lemma urgent_once_witness :
  let message := str "This is URGENT, call me back" in
  let v := analyzeHeuristically toLowerCase_latin1 toUpperCase_latin1
             message in
  keywordsLowercase toLowerCase_latin1
  /\ occurrences (toLowerCase_latin1 message) (str "urgent") = 1%nat
  /\ noOtherSignal toLowerCase_latin1 toUpperCase_latin1 message
  /\ In (str "Urgent or time-pressured language") (patterns v)
  /\ (20 <= riskScore v)%Z
  /\ riskScore v = 20%Z
  /\ riskLevel v = low.
Proof.
  cbv zeta.
  assert (K : keywordsLowercase toLowerCase_latin1).
  { apply keywordsLowercaseb_sound. vm_compute. reflexivity. }
  assert (O : occurrences
                (toLowerCase_latin1 (str "This is URGENT, call me back"))
                (str "urgent") = 1%nat) by (vm_compute; reflexivity).
  assert (N : noOtherSignal toLowerCase_latin1 toUpperCase_latin1
                (str "This is URGENT, call me back")).
  { apply noOtherSignalb_sound. vm_compute. reflexivity. }
  destruct (@urgent_once_spec toLowerCase_latin1 toUpperCase_latin1
              (str "This is URGENT, call me back") K O)
    as [Hin [Hge [_ Hquiet]]].
  destruct (Hquiet N) as [Hs Hl].
  exact (conj K (conj O (conj N (conj Hin (conj Hge (conj Hs Hl)))))).
Defined.

(** The lunch message of the specification. *)
Lemma short_clean_message_witness :
  let message := str "Hey, are we still on for lunch tomorrow?" in
  let v := analyzeHeuristically toLowerCase_latin1 toUpperCase_latin1
             message in
  keywordsLowercase toLowerCase_latin1
  /\ noKeywordMatch toLowerCase_latin1 message
  /\ (length message < 50)%nat
  /\ formattingAnomaly toUpperCase_latin1 message = false
  /\ hasShortenedLinks message = false
  /\ riskScore v = 0%Z /\ riskLevel v = low /\ patterns v = [noPatterns].
Proof.
  cbv zeta.
  assert (K : keywordsLowercase toLowerCase_latin1).
  { apply keywordsLowercaseb_sound. vm_compute. reflexivity. }
  assert (M : noKeywordMatch toLowerCase_latin1
                (str "Hey, are we still on for lunch tomorrow?")).
  { apply noKeywordMatchb_sound. vm_compute. reflexivity. }
  assert (L : (length (str "Hey, are we still on for lunch tomorrow?")
               < 50)%nat) by (vm_compute; lia).
  assert (F : formattingAnomaly toUpperCase_latin1
                (str "Hey, are we still on for lunch tomorrow?") = false)
    by (vm_compute; reflexivity).
  assert (S : hasShortenedLinks
                (str "Hey, are we still on for lunch tomorrow?") = false)
    by (vm_compute; reflexivity).
  exact (conj K (conj M (conj L (conj F (conj S
           (@short_clean_message_spec toLowerCase_latin1
              toUpperCase_latin1 _ K M L F S)))))).
Defined.

(** Two runs in different surroundings: no key at all, and a key with a
    response that does not parse. *)
Lemma heuristic_deterministic_witness :
  let message := str "You are a WINNER, claim your prize" in
  let run := analyzeMessage toLowerCase_latin1 toUpperCase_latin1 in
  let verdict :=
    analyzeHeuristically toLowerCase_latin1 toUpperCase_latin1 message in
  run None CallFails message = Built verdict
  /\ run (Some (str "key")) ParseFails message = Built verdict
  /\ verdict = verdict.
Proof.
  cbv zeta.
  assert (A : analyzeMessage toLowerCase_latin1 toUpperCase_latin1
                None CallFails (str "You are a WINNER, claim your prize")
              = Built (analyzeHeuristically toLowerCase_latin1
                         toUpperCase_latin1
                         (str "You are a WINNER, claim your prize")))
    by reflexivity.
  assert (B : analyzeMessage toLowerCase_latin1 toUpperCase_latin1
                (Some (str "key")) ParseFails
                (str "You are a WINNER, claim your prize")
              = Built (analyzeHeuristically toLowerCase_latin1
                         toUpperCase_latin1
                         (str "You are a WINNER, claim your prize")))
    by reflexivity.
  exact (conj A (conj B
           (proj2 (@heuristic_deterministic toLowerCase_latin1
                     toUpperCase_latin1
                     (str "You are a WINNER, claim your prize"))
                  _ _ _ _ _ _ A B))).
Defined.

(** C8 fails as stated: three exclamation marks, or a shortened link,
    in a short message without any keyword, push a pattern and a score. *)
Lemma short_clean_message_counterexample :
  ~ shortBenignClaim toLowerCase_latin1 toUpperCase_latin1 (str "Hi!!!")
  /\ ~ shortBenignClaim toLowerCase_latin1 toUpperCase_latin1
         (str "bit.ly/x").
Proof.
  split; intros H.
  - destruct H as [H _]; [apply noKeywordMatchb_sound; vm_compute;
      reflexivity | vm_compute; lia |].
    vm_compute in H. discriminate H.
  - destruct H as [H _]; [apply noKeywordMatchb_sound; vm_compute;
      reflexivity | vm_compute; lia |].
    vm_compute in H. discriminate H.
Qed.

(** C9 fails as stated: with a key set, a response that parses to an
    object with score 150 and tier [critical] passes the guard and is the
    verdict, without an explanation. *)
Lemma analyzeMessage_verdict_counterexample :
  let analysis :=
    JObject [(str "riskScore",
              JNumber (S754_finite false 5277655813324800 (-45)));
             (str "riskLevel", JString (str "critical"))] in
  analyzeMessage toLowerCase_latin1 toUpperCase_latin1
    (Some (str "key")) (Parsed analysis) (str "hello")
  = Accepted analysis
  /\ verdictInvariants (Accepted analysis) = false
  /\ isIntegerBetween 150 150 (S754_finite false 5277655813324800 (-45))
     = true.
Proof. cbv zeta. split; [|split]; vm_compute; reflexivity. Qed.

(** *** The cleaning, the handler and the further properties at work *)

(** A response without a fence, with white space around it. *)
Lemma cleanJson_plain_witness :
  let text := 10%N :: str " {x} " in
  includes text (str "```") = false /\ cleanJson text = str "{x}".
Proof.
  cbv zeta.
  assert (H : includes (10%N :: str " {x} ") (str "```") = false)
    by (vm_compute; reflexivity).
  split; [exact H|].
  rewrite (proj1 (cleanJson_plain (10%N :: str " {x} ")) H).
  vm_compute. reflexivity.
Defined.

(** The usual shape of a fenced response: the fences on lines of their
    own. *)
Lemma cleanJson_fenced_witness :
  let body := 10%N :: str "{x}" ++ [10%N] in
  ~ In 96%N body
  /\ cleanJson (str "```json" ++ body ++ str "```") = str "{x}"
  /\ cleanJson (str "```" ++ body ++ str "```") = str "{x}".
Proof.
  cbv zeta.
  assert (N : ~ In 96%N (10%N :: str "{x}" ++ [10%N])).
  { vm_compute. intros [H|[H|[H|[H|[H|[]]]]]]; discriminate H. }
  destruct (@cleanJson_fenced (10%N :: str "{x}" ++ [10%N]) N) as [A B].
  split; [exact N|]. rewrite A, (B eq_refl).
  vm_compute. split; reflexivity.
Defined.

(** A request of one client leaves the entry of another one alone. *)
Lemma POST_store_witness :
  let store := [(str "10.0.0.7", {| count := 4; resetTime := 90000 |})] in
  let request :=
    {| forwardedFor := Some (str "10.0.0.8"); now := 50000;
       json := None; credential := None; reply := CallFails |} in
  let after :=
    snd (POST toLowerCase_latin1 toUpperCase_latin1 store request) in
  str "10.0.0.7" <> str "10.0.0.8"
  /\ Map_get after (str "10.0.0.7")
     = Some {| count := 4; resetTime := 90000 |}
  /\ Map_get after (str "10.0.0.8")
     = Some {| count := 1; resetTime := 110000 |}.
Proof.
  cbv zeta.
  assert (D : str "10.0.0.7" <> str "10.0.0.8")
    by (vm_compute; discriminate).
  destruct (@POST_store toLowerCase_latin1 toUpperCase_latin1
              [(str "10.0.0.7", {| count := 4; resetTime := 90000 |})]
              {| forwardedFor := Some (str "10.0.0.8"); now := 50000;
                 json := None; credential := None; reply := CallFails |}
              (str "10.0.0.7")) as [Hown Hother].
  split; [exact D|]. split.
  - rewrite (Hother D). reflexivity.
  - exact Hown.
Defined.

(** Twelve requests of a new client within two seconds: the eleventh is
    turned away. *)
Lemma serve_burst_witness :
  let first :=
    {| forwardedFor := Some (str "10.0.0.7"); now := 1000;
       json := None; credential := None; reply := CallFails |} in
  let later :=
    {| forwardedFor := Some (str "10.0.0.7"); now := 3000;
       json := None; credential := None; reply := CallFails |} in
  let limited :=
    {| status := 429;
       payload := Failure (str "Too many requests")
                          (str "RATE_LIMIT_EXCEEDED") |} in
  Map_get [] (clientOf (forwardedFor first)) = None
  /\ nth_error
       (fst (serve toLowerCase_latin1 toUpperCase_latin1 []
               (first :: repeat later 11))) 10
     = Some limited
  /\ (status limited = 429%Z <-> (10 <= 10)%nat).
Proof.
  intros first later limited. split; [reflexivity|].
  assert (H : nth_error
                (fst (serve toLowerCase_latin1 toUpperCase_latin1 []
                        (first :: repeat later 11))) 10
              = Some limited) by (vm_compute; reflexivity).
  split; [exact H|].
  apply (@serve_burst toLowerCase_latin1 toUpperCase_latin1 [] first
           (repeat later 11) 10 limited eq_refl); [|exact H].
  intros q Hq. apply repeat_spec in Hq. subst q.
  split; [reflexivity | vm_compute; discriminate].
Defined.

(** A client with 25 counted requests: turned away at the last
    millisecond of its window, let in one millisecond later. *)
Lemma POST_window_witness :
  let store := [(str "unknown", {| count := 25; resetTime := 5000 |})] in
  let at_ (t : Z) :=
    {| forwardedFor := None; now := t; json := None; credential := None;
       reply := CallFails |} in
  let run := POST toLowerCase_latin1 toUpperCase_latin1 store in
  Map_get store (clientOf None) = Some {| count := 25; resetTime := 5000 |}
  /\ (5000 < 5001)%Z
  /\ status (fst (run (at_ 5001%Z))) <> 429%Z
  /\ Map_get (snd (run (at_ 5001%Z))) (str "unknown")
     = Some {| count := 1; resetTime := 65001 |}
  /\ status (fst (run (at_ 5000%Z))) = 429%Z.
Proof.
  cbv zeta.
  assert (G : Map_get [(str "unknown", {| count := 25; resetTime := 5000 |})]
                (clientOf None)
              = Some {| count := 25; resetTime := 5000 |}) by reflexivity.
  destruct (@POST_window toLowerCase_latin1 toUpperCase_latin1
              [(str "unknown", {| count := 25; resetTime := 5000 |})]
              {| forwardedFor := None; now := 5001; json := None;
                 credential := None; reply := CallFails |}
              {| count := 25; resetTime := 5000 |} G) as [Hnew _].
  destruct (@POST_window toLowerCase_latin1 toUpperCase_latin1
              [(str "unknown", {| count := 25; resetTime := 5000 |})]
              {| forwardedFor := None; now := 5000; json := None;
                 credential := None; reply := CallFails |}
              {| count := 25; resetTime := 5000 |} G) as [_ Hold].
  assert (L : (5000 < 5001)%Z) by lia.
  destruct (Hnew L) as [N1 N2].
  destruct (Hold (Z.le_refl 5000)) as [_ O2].
  split; [exact G|]. split; [exact L|]. split; [exact N1|].
  split; [exact N2|]. apply O2. cbn [count]. lia.
Defined.

(** The phrase reported for a message in capitals is the keyword. *)
Lemma suspiciousPhrases_sound_witness :
  let message := str "URGENT: pay now" in
  let v := analyzeHeuristically toLowerCase_latin1 toUpperCase_latin1
             message in
  In (str "urgent") (suspiciousPhrases v)
  /\ In (str "urgent") allKeywords
  /\ includes (toLowerCase_latin1 message)
              (toLowerCase_latin1 (str "urgent")) = true.
Proof.
  cbv zeta.
  assert (H : In (str "urgent")
                (suspiciousPhrases
                   (analyzeHeuristically toLowerCase_latin1
                      toUpperCase_latin1 (str "URGENT: pay now"))))
    by (vm_compute; left; reflexivity).
  split; [exact H|].
  exact (@suspiciousPhrases_sound toLowerCase_latin1 toUpperCase_latin1
           (str "URGENT: pay now") (str "urgent") H).
Defined.

(** One phrase, two categories; one phrase, a category and the
    sensitive-information check. *)
Lemma overlapping_keywords_witness :
  let run := analyzeHeuristically toLowerCase_latin1 toUpperCase_latin1 in
  keywordsLowercase toLowerCase_latin1
  /\ includes (toLowerCase_latin1 (str "Suspended account"))
              (str "suspended account") = true
  /\ (40 <= riskScore (run (str "Suspended account")))%Z
  /\ includes (toLowerCase_latin1 (str "Reset password"))
              (str "reset password") = true
  /\ (45 <= riskScore (run (str "Reset password")))%Z.
Proof.
  cbv zeta.
  assert (K : keywordsLowercase toLowerCase_latin1).
  { apply keywordsLowercaseb_sound. vm_compute. reflexivity. }
  assert (A : includes (toLowerCase_latin1 (str "Suspended account"))
                (str "suspended account") = true)
    by (vm_compute; reflexivity).
  assert (B : includes (toLowerCase_latin1 (str "Reset password"))
                (str "reset password") = true)
    by (vm_compute; reflexivity).
  destruct (@overlapping_keywords toLowerCase_latin1 toUpperCase_latin1
              (str "Suspended account") K) as [H1 _].
  destruct (@overlapping_keywords toLowerCase_latin1 toUpperCase_latin1
              (str "Reset password") K) as [_ H2].
  destruct (H1 A) as [_ [_ [S1 _]]]. destruct (H2 B) as [_ [_ [S2 _]]].
  exact (conj K (conj A (conj S1 (conj B S2)))).
Defined.

(** [pin] inside [shopping]. *)
Lemma sensitive_information_last_witness :
  let message := str "Happy shopping" in
  let v := analyzeHeuristically toLowerCase_latin1 toUpperCase_latin1
             message in
  In (str "pin") personalInfoKeywords
  /\ includes (toLowerCase_latin1 message) (str "pin") = true
  /\ last (patterns v) noPatterns
     = str "Requests for sensitive personal information"
  /\ (25 <= riskScore v)%Z.
Proof.
  cbv zeta.
  assert (A : In (str "pin") personalInfoKeywords)
    by (vm_compute; tauto).
  assert (B : includes (toLowerCase_latin1 (str "Happy shopping"))
                (str "pin") = true) by (vm_compute; reflexivity).
  exact (conj A (conj B
           (@sensitive_information_last toLowerCase_latin1
              toUpperCase_latin1 (str "Happy shopping") (str "pin") A B))).
Defined.

(** The case break in [iPhone]. *)
Lemma formatting_triggers_witness :
  let message := str "My iPhone" in
  let v := analyzeHeuristically toLowerCase_latin1 toUpperCase_latin1
             message in
  message = str "My " ++ 105%N :: 80%N :: str "hone"
  /\ isAsciiLower 105 = true /\ isAsciiUpper 80 = true
  /\ In (str "Poor grammar or unusual formatting") (patterns v)
  /\ (10 <= riskScore v)%Z.
Proof.
  cbv zeta.
  assert (E : str "My iPhone" = str "My " ++ 105%N :: 80%N :: str "hone")
    by reflexivity.
  destruct (@formatting_triggers toLowerCase_latin1 toUpperCase_latin1
              (str "My iPhone")) as [P S].
  { right. left. exists (str "My "), 105%N, 80%N, (str "hone").
    split; [exact E | split; reflexivity]. }
  split; [exact E|]. split; [reflexivity|]. split; [reflexivity|].
  split; [exact P | exact S].
Defined.

(** The score 30 is reached, and drawn in the colour of level medium
    while the badge has the colour of level low. *)
Lemma display_colours_at_30 :
  let v := analyzeHeuristically toLowerCase_latin1 toUpperCase_latin1
             (str "urgent: https://example.com") in
  riskScore v = 30%Z /\ riskLevel v = low
  /\ getRiskScoreColor (riskScore v) = str "text-amber-600"
  /\ getRiskColor (levelName (riskLevel v))
     = str "text-emerald-600 bg-emerald-50 border-emerald-200".
Proof. cbv zeta. vm_compute. repeat split. Qed.

(** A message sent to a deployment without a key. *)
Lemma POST_heuristic_witness :
  let body := JObject [(str "message", JString (str "Claim your prize"))] in
  let request :=
    {| forwardedFor := Some (str "10.0.0.7"); now := 1000;
       json := Some body; credential := None; reply := CallFails |} in
  admitted [] request = true
  /\ messageField request = Some (str "Claim your prize")
  /\ acceptable (str "Claim your prize") = true
  /\ credentialAbsent (credential request) = true
  /\ fst (POST toLowerCase_latin1 toUpperCase_latin1 [] request)
     = {| status := 200;
          payload :=
            Verdict (Built (analyzeHeuristically toLowerCase_latin1
                              toUpperCase_latin1
                              (str "Claim your prize"))) |}.
Proof.
  intros body request.
  assert (A : admitted [] request = true) by reflexivity.
  assert (M : messageField request = Some (str "Claim your prize"))
    by reflexivity.
  assert (C : acceptable (str "Claim your prize") = true)
    by (vm_compute; reflexivity).
  assert (K : credentialAbsent (credential request) = true) by reflexivity.
  exact (conj A (conj M (conj C (conj K
           (proj1 (@POST_heuristic toLowerCase_latin1 toUpperCase_latin1
                     [] request (str "Claim your prize") A M C
                     (or_introl K))))))).
Defined.
